(** * Session management of the Databricks MCP server (src/main.py)

    A shallow embedding of the session subsystem of [main.py]: the [Session]
    class, the process-wide [sessions] dictionary, [get_session], the
    credential resolution at the head of [get_databricks_connection] and
    [databricks_api_request], and the tools [login], [logout] and
    [session_status].

    Conventions.
    - A [datetime] is an integer number of microseconds (the resolution of
      Python's [datetime]), a [timedelta] likewise; their arithmetic and
      comparisons are exact, so [Z] models them without loss.
    - [datetime.now()], [uuid.uuid4()] and the SQL driver are outside the
      program.  They are oracles indexed by the number of calls made so far;
      the counters live in the program state.  Nothing is assumed of them:
      the wall clock may repeat a reading or step backwards, the identifier
      generator may repeat itself, the driver may fail at any call.
    - Python mutates a [Session] object in place through the reference the
      dictionary holds.  Between the lookup and the update of [get_session]
      nothing else runs, so the mutation is the same as storing the updated
      record back under the key it was found at.
    - A raised exception is a [Raise] result; the state reached when it was
      raised is kept, as in Python. *)

(** The tools that use the sessions are embedded too: [get_schema],
    [run_sql_query], the whole of [databricks_api_request], and [list_jobs].
    What they ask of the SQL driver and of the HTTP client is again an
    oracle; the JSON of a response is a value of the type [Json] below. *)

From stdpp Require Import base option strings gmap fin_maps pretty.
From Stdlib Require Import ZArith Lia Ascii String.
From Stdlib Require SpecFloat.

Local Open Scope string_scope.
Local Open Scope Z_scope.

(** ** Exceptions and results *)

(** [ValueError] is what the program itself raises; [DriverError] stands for
    any [Exception] raised by the SQL driver.  Both carry [str(e)]. *)
Inductive exn : Type :=
  | ValueError (msg : string)
  | DriverError (msg : string).

Definition str (e : exn) : string :=
  match e with
  | ValueError msg => msg
  | DriverError msg => msg
  end.

Inductive result (A : Type) : Type :=
  | Ok (a : A)
  | Raise (e : exn).
Arguments Ok {A} a.
Arguments Raise {A} e.

(** ** The Session entity *)

Record Session : Type := mkSession {
  id : string;
  host : string;
  token : string;
  http_path : string;
  created_at : Z;
  last_used : Z;
  expiry : Z
}.

(** [timedelta(hours=1)], in microseconds. *)
Definition one_hour : Z := 3600000000.

(** The assignment [self.last_used = t]. *)
Definition set_last_used (t : Z) (s : Session) : Session :=
  {| id := id s; host := host s; token := token s; http_path := http_path s;
     created_at := created_at s; last_used := t; expiry := expiry s |}.

(** ** Program state *)

Record World : Type := mkWorld {
  sessions : gmap string Session;
  clock_reads : nat;
  uuid_draws : nat;
  driver_calls : nat
}.

Definition set_sessions (m : gmap string Session) (w : World) : World :=
  {| sessions := m; clock_reads := clock_reads w;
     uuid_draws := uuid_draws w; driver_calls := driver_calls w |}.

Definition tick_clock (w : World) : World :=
  {| sessions := sessions w; clock_reads := S (clock_reads w);
     uuid_draws := uuid_draws w; driver_calls := driver_calls w |}.

Definition tick_uuid (w : World) : World :=
  {| sessions := sessions w; clock_reads := clock_reads w;
     uuid_draws := S (uuid_draws w); driver_calls := driver_calls w |}.

Definition tick_driver (w : World) : World :=
  {| sessions := sessions w; clock_reads := clock_reads w;
     uuid_draws := uuid_draws w; driver_calls := S (driver_calls w) |}.

Definition add_driver_calls (n : nat) (w : World) : World :=
  {| sessions := sessions w; clock_reads := clock_reads w;
     uuid_draws := uuid_draws w; driver_calls := (n + driver_calls w)%nat |}.

(** The state of the process at start-up: [sessions = {}]. *)
Definition startup : World :=
  {| sessions := ∅; clock_reads := 0; uuid_draws := 0; driver_calls := 0 |}.

(** ** A state and exception monad *)

Definition M (A : Type) : Type := World → result A * World.

Definition ret {A} (a : A) : M A := λ w, (Ok a, w).

Definition bind {A B} (m : M A) (k : A → M B) : M B :=
  λ w, match m w with
       | (Ok a, w') => k a w'
       | (Raise e, w') => (Raise e, w')
       end.

Definition raise {A} (e : exn) : M A := λ w, (Raise e, w).

(** [try: m except Exception as e: h e]. *)
Definition try_except {A} (m : M A) (h : exn → M A) : M A :=
  λ w, match m w with
       | (Ok a, w') => (Ok a, w')
       | (Raise e, w') => h e w'
       end.

Definition get_sessions : M (gmap string Session) := λ w, (Ok (sessions w), w).

Definition put_sessions (m : gmap string Session) : M unit :=
  λ w, (Ok tt, set_sessions m w).

Declare Scope py_scope.
Delimit Scope py_scope with py.
Notation "x <- m ;; k" := (bind m (λ x, k))
  (at level 100, m at next level, right associativity) : py_scope.
Notation "m ;;; k" := (bind m (λ _, k))
  (at level 100, right associativity) : py_scope.
Local Open Scope py_scope.

(** Truth value of an [Optional[str]]: [None] and the empty string are
    false. *)
Definition truthy (o : option string) : bool :=
  match o with
  | None => false
  | Some s => negb (String.eqb s EmptyString)
  end.

(** [all([...])]. *)
Definition all (l : list (option string)) : bool := forallb truthy l.

(** *** Line 177: [int(expires_in.total_seconds() / 60)]

    Python computes the minutes in binary64 floating point.  The floats are
    those of [SpecFloat], the specification of IEEE 754 arithmetic of the
    Standard Library, at precision 53 with exponents below 1024; a
    [timedelta] is its number of microseconds. *)

(** An integer as an operand of a division: Python divides two integers, and
    a float by an integer, as the exact values. *)
Definition float_of_int (n : Z) : SpecFloat.spec_float :=
  match n with
  | Z0 => SpecFloat.S754_zero false
  | Zpos p => SpecFloat.S754_finite false p 0
  | Zneg p => SpecFloat.S754_finite true p 0
  end.

(** [x / y], rounded to the nearest float, ties to even. *)
Definition float_div (x y : SpecFloat.spec_float) : SpecFloat.spec_float :=
  SpecFloat.SFdiv 53 1024 x y.

(** [int(x)] of a finite float: its value with the fraction cut off.  The
    quotients of line 177 are finite for every [timedelta]. *)
Definition int_of_float (x : SpecFloat.spec_float) : Z :=
  match x with
  | SpecFloat.S754_finite s m e =>
      let a := match e with
               | Z0 => Zpos m
               | Zpos _ => Z.shiftl (Zpos m) e
               | Zneg k => Z.shiftr (Zpos m) (Zpos k)
               end in
      if s then - a else a
  | _ => 0
  end.

(** [timedelta.total_seconds()]: the microseconds divided by [10**6]. *)
Definition total_seconds (microseconds : Z) : SpecFloat.spec_float :=
  float_div (float_of_int microseconds) (float_of_int 1000000).

Definition minutes_of (expires_in : Z) : Z :=
  int_of_float (float_div (total_seconds expires_in) (float_of_int 60)).

Definition nl : string := String "010"%char EmptyString.

(** ** More of the Python run time *)

(** [try: m finally: f]: [f] runs whatever [m] did; an exception raised by
    [f] replaces the outcome of [m]. *)
Definition try_finally {A} (m : M A) (f : M unit) : M A :=
  λ w, match m w with
       | (r, w1) =>
           match f w1 with
           | (Ok _, w2) => (r, w2)
           | (Raise e, w2) => (Raise e, w2)
           end
       end.

(** [sep.join(l)] is [String.concat sep l]. *)

(** [str.upper] on a string of ASCII characters only: the letters a-z are
    mapped to A-Z, everything else is kept.  A string is its UTF-8 bytes, so
    a character outside ASCII shows as a byte of 128 or more. *)
Definition upper_ascii (c : ascii) : ascii :=
  let n := N_of_ascii c in
  if ((97 <=? n) && (n <=? 122))%N then ascii_of_N (n - 32) else c.

Fixpoint map_ascii (f : ascii → ascii) (s : string) : string :=
  match s with
  | EmptyString => EmptyString
  | String c s' => String (f c) (map_ascii f s')
  end.

Fixpoint is_ascii (s : string) : bool :=
  match s with
  | EmptyString => true
  | String c s' => (N_of_ascii c <? 128)%N && is_ascii s'
  end.

(** The values [response.json()] returns.  A float is kept as what the code
    observes of it, whether it is non-zero and its [str]; a dict is the list
    of its items in insertion order. *)
Inductive Atom : Type :=
  | ANone
  | ABool (b : bool)
  | AInt (n : Z)
  | AFloat (nonzero : bool) (text : string).

#[local] Unset Elimination Schemes.
Inductive Json : Type :=
  | JAtom (a : Atom)
  | JStr (s : string)
  | JList (l : list Json)
  | JDict (d : list (string * Json)).
#[local] Set Elimination Schemes.

(** [type(v).__name__]. *)
Definition type_name (v : Json) : string :=
  match v with
  | JAtom ANone => "NoneType"
  | JAtom (ABool _) => "bool"
  | JAtom (AInt _) => "int"
  | JAtom (AFloat _ _) => "float"
  | JStr _ => "str"
  | JList _ => "list"
  | JDict _ => "dict"
  end.

(** [bool(v)]. *)
Definition json_truthy (v : Json) : bool :=
  match v with
  | JAtom ANone => false
  | JAtom (ABool b) => b
  | JAtom (AInt n) => negb (n =? 0)
  | JAtom (AFloat nonzero _) => nonzero
  | JStr s => negb (String.eqb s EmptyString)
  | JList l => match l with [] => false | _ => true end
  | JDict d => match d with [] => false | _ => true end
  end.

(** [str(a)] for a value that is neither a string nor a container. *)
Definition str_atom (a : Atom) : string :=
  match a with
  | ANone => "None"
  | ABool true => "True"
  | ABool false => "False"
  | AInt n => pretty n
  | AFloat _ text => text
  end.

(** The value stored under [key] in the items of a dict. *)
Fixpoint assoc (key : string) (d : list (string * Json)) : option Json :=
  match d with
  | [] => None
  | (k, v) :: d' => if String.eqb k key then Some v else assoc key d'
  end.

(** [str(e)] of the [AttributeError] that [v.get] raises when [v] is not a
    dict, and of the [TypeError] that [for x in v] raises when [v] cannot be
    iterated. *)
Definition no_attribute_get (v : Json) : string :=
  "'" +:+ type_name v +:+ "' object has no attribute 'get'".
Definition not_iterable (v : Json) : string :=
  "'" +:+ type_name v +:+ "' object is not iterable".

(** [v.get(key, default)]: [inl] is the [str] of the exception raised. *)
Definition py_get (v : Json) (key : string) (default : Json) : string + Json :=
  match v with
  | JDict d => inr (from_option (λ x, x) default (assoc key d))
  | _ => inl (no_attribute_get v)
  end.

(** The elements [for x in v] goes through.  A dict gives its keys.  A
    string gives strings of one character each; they are cut here at every
    byte, which is exact for ASCII text and gives strings in any case. *)
Definition py_iter (v : Json) : string + list Json :=
  match v with
  | JList l => inr l
  | JDict d => inr (map (λ kv, JStr kv.1) d)
  | JStr s =>
      inr (map (λ c, JStr (String c EmptyString)) (list_ascii_of_string s))
  | JAtom _ => inl (not_iterable v)
  end.

(** ** Sample environments *)

(** A clock that advances by one microsecond at every reading, and a clock
    of coarse resolution, which advances by a millisecond every eighth
    reading and returns the same instant in between. *)
Definition ticking_clock (n : nat) : Z := Z.of_nat n.
Definition coarse_clock (n : nat) : Z := 1000 * Z.of_nat (n / 8).

(** A clock that is set forward by some 544 years after its fourth
    reading. *)
Definition leaping_clock (n : nat) : Z :=
  if (n <? 4)%nat then 0 else 17180120819999999.

(** A generator that never repeats itself. *)
Definition numbered_uuid (n : nat) : string := "id" +:+ pretty n.

Definition full_environ : gmap string string :=
  <["DATABRICKS_HOST" := "h"]>
    (<["DATABRICKS_TOKEN" := "t"]> (<["DATABRICKS_HTTP_PATH" := "p"]> ∅)).

(** Host and token are set, the http path is not. *)
Definition rest_environ : gmap string string :=
  <["DATABRICKS_HOST" := "h"]> (<["DATABRICKS_TOKEN" := "t"]> ∅).

(** All three are set, the host to the empty string. *)
Definition blank_host_environ : gmap string string :=
  <["DATABRICKS_HOST" := EmptyString]>
    (<["DATABRICKS_TOKEN" := "t"]> (<["DATABRICKS_HTTP_PATH" := "p"]> ∅)).

(** A driver that accepts everything, and one that refuses to connect. *)
Definition accepting_connect (n : nat) (h p t : string) : string + unit :=
  inr tt.
Definition refusing_connect (n : nat) (h p t : string) : string + unit :=
  inl "bad token".
Definition accepting_execute (n : nat) (conn : unit) (sql : string)
  : option string := None.
Definition accepting_close (n : nat) (conn : unit) : option string := None.

Definition plain_strftime (t : Z) : string := pretty t.

(** A driver that fails to close, a catalogue of two tables, a result of
    two columns and two rows, and a query that fails. *)
Definition refusing_close (n : nat) (conn : unit) : option string :=
  Some "connection lost".
Definition two_tables (n : nat) (conn : unit)
  : string + list (string * string * string) :=
  inr [("main", "sales", "orders"); ("main", "sales", "customers")].
Definition two_rows (n : nat) (conn : unit) (sql : string)
  : string + (list string * list (list string)) :=
  inr (["id"; "name"], [["1"; "ann"]; ["2"; "bob"]]).
Definition failing_query (n : nat) (conn : unit) (sql : string)
  : string + (list string * list (list string)) :=
  inl "syntax error".

(** An HTTP client whose responses are the JSON they carry, and a listing
    of two jobs, the second with its id only. *)
Definition two_jobs : Json :=
  JDict [("jobs",
          JList [JDict [("job_id", JAtom (AInt 7));
                        ("settings", JDict [("name", JStr "nightly")]);
                        ("created_by", JStr "ann")];
                 JDict [("job_id", JAtom (AInt 8))]])].
Definition jobs_get (n : nat) (url : string) (headers : list (string * string))
  : string + Json := inr two_jobs.
Definition no_post (n : nat) (url : string) (headers : list (string * string))
    (data : option Json) : string + Json := inl "no route".
Definition status_ok (response : Json) : option string := None.
Definition json_body (response : Json) : string + Json := inr response.
Definition upper_as_is (s : string) : string := s.
Definition short_repr (v : Json) : string := "[...]".

Section Server.

(** *** The environment of the process *)

(** [datetime.now()] at the n-th call. *)
Variable clock : nat → Z.
(** [str(uuid.uuid4())] at the n-th call. *)
Variable uuid4 : nat → string.
(** [os.environ], after [load_dotenv()]; the program never writes to it. *)
Variable environ : gmap string string.
(** [datetime.strftime] with the format ['%Y-%m-%d %H:%M:%S']. *)
Variable strftime : Z → string.

(** The SQL driver.  [inl cause] and [Some cause] are an exception raised
    by the call, with [str(e) = cause]; the first argument is the number
    of driver calls made before this one. *)
Variable Connection : Type.
Variable sql_connect : nat → string → string → string → string + Connection.
Variable cursor_execute : nat → Connection → string → option string.
Variable conn_close : nat → Connection → option string.

Definition datetime_now : M Z :=
  λ w, (Ok (clock (clock_reads w)), tick_clock w).

Definition uuid_uuid4 : M string :=
  λ w, (Ok (uuid4 (uuid_draws w)), tick_uuid w).

Definition getenv (name : string) : option string := environ !! name.

(** [connect(server_hostname=.., http_path=.., access_token=..)]. *)
Definition connect (server_hostname http_path access_token : string)
  : M Connection :=
  λ w, match sql_connect (driver_calls w) server_hostname http_path access_token with
       | inr conn => (Ok conn, tick_driver w)
       | inl cause => (Raise (DriverError cause), tick_driver w)
       end.

(** [cursor = conn.cursor(); cursor.execute(sql)]. *)
Definition execute (conn : Connection) (sql : string) : M unit :=
  λ w, match cursor_execute (driver_calls w) conn sql with
       | None => (Ok tt, tick_driver w)
       | Some cause => (Raise (DriverError cause), tick_driver w)
       end.

(** [conn.close()]. *)
Definition close (conn : Connection) : M unit :=
  λ w, match conn_close (driver_calls w) conn with
       | None => (Ok tt, tick_driver w)
       | Some cause => (Raise (DriverError cause), tick_driver w)
       end.

(** *** class Session (lines 20-35) *)

Definition Session_init (host token http_path : string) : M Session :=
  i <- uuid_uuid4 ;;
  c <- datetime_now ;;
  u <- datetime_now ;;
  ret {| id := i; host := host; token := token; http_path := http_path;
         created_at := c; last_used := u; expiry := one_hour |}.

(** The method assigns to [self.last_used]; here it returns the object as
    it is after the assignment, and the caller stores it back. *)
Definition update_last_used (self : Session) : M Session :=
  t <- datetime_now ;;
  ret (set_last_used t self).

Definition is_expired (self : Session) : M bool :=
  t <- datetime_now ;;
  ret (bool_decide (t - last_used self > expiry self)).

(** *** get_session (lines 37-50) *)

(** [del sessions[session_id]] in the expired branch; in the live branch the
    object in the dictionary is the one updated and returned. *)
Definition get_session (session_id : string) : M (option Session) :=
  store <- get_sessions ;;
  match store !! session_id with
  | None => ret None
  | Some session =>
      expired <- is_expired session ;;
      if expired then
        store <- get_sessions ;;
        put_sessions (delete session_id store) ;;;
        ret None
      else
        session <- update_last_used session ;;
        store <- get_sessions ;;
        put_sessions (<[session_id := session]> store) ;;;
        ret (Some session)
  end.

(** *** Credential resolution (lines 55-70 and 81-94) *)

(** The value of a variable that [all] found true. *)
Definition the (o : option string) : string := default EmptyString o.

Definition invalid_session : exn := ValueError "Invalid or expired session ID".
Definition missing_connection_details : exn :=
  ValueError "Missing required Databricks connection details".
Definition missing_api_credentials : exn :=
  ValueError "Missing required Databricks API credentials".

(** Lines 55-70 of [get_databricks_connection]: the three values handed to
    [connect], as (host, token, http_path). *)
Definition connection_details (session_id : option string)
  : M (string * string * string) :=
  hth <- (if truthy session_id then
            session <- get_session (the session_id) ;;
            match session with
            | None => raise invalid_session
            | Some session =>
                ret (Some (host session), Some (token session),
                     Some (http_path session))
            end
          else
            ret (getenv "DATABRICKS_HOST", getenv "DATABRICKS_TOKEN",
                 getenv "DATABRICKS_HTTP_PATH")) ;;
  let '(host, token, http_path) := hth in
  if negb (all [host; token; http_path]) then
    raise missing_connection_details
  else
    ret (the host, the token, the http_path).

Definition get_databricks_connection (session_id : option string)
  : M Connection :=
  hth <- connection_details session_id ;;
  let '(host, token, http_path) := hth in
  connect host http_path token.

(** Lines 81-94 of [databricks_api_request]: the two values the request is
    built from, as (host, token). *)
Definition api_credentials (session_id : option string)
  : M (string * string) :=
  ht <- (if truthy session_id then
           session <- get_session (the session_id) ;;
           match session with
           | None => raise invalid_session
           | Some session => ret (Some (host session), Some (token session))
           end
         else
           ret (getenv "DATABRICKS_HOST", getenv "DATABRICKS_TOKEN")) ;;
  let '(host, token) := ht in
  if negb (all [host; token]) then
    raise missing_api_credentials
  else
    ret (the host, the token).

(** *** login, logout, session_status (lines 114-188) *)

Definition login_message (host session_id : string) : string :=
  nl +:+ "## Successfully authenticated with Databricks" +:+ nl +:+
  nl +:+ "**Host**: " +:+ host +:+
  nl +:+ "**Session ID**: " +:+ session_id +:+ nl +:+
  nl +:+ "Your session will expire after 1 hour of inactivity." +:+
  nl +:+ "Please use this session_id in subsequent requests." +:+
  nl +:+ "        ".

Definition login_failure (e : exn) : string :=
  "Authentication failed: " +:+ str e.

Definition login (host token http_path : string) : M string :=
  try_except
    (conn <- connect host http_path token ;;
     execute conn "SELECT 1" ;;;
     close conn ;;;
     session <- Session_init host token http_path ;;
     store <- get_sessions ;;
     put_sessions (<[id session := session]> store) ;;;
     ret (login_message host (id session)))
    (λ e, ret (login_failure e)).

(** What lines 126-133 of [login] meet at the driver when [n] driver calls
    were made before: [Some cause] if [connect], [execute] or [close] raises
    (in this order), [None] if all three return; and the number of driver
    calls made. *)
Definition probe (n : nat) (host token http_path : string)
  : option string * nat :=
  match sql_connect n host http_path token with
  | inl cause => (Some cause, 1%nat)
  | inr conn =>
      match cursor_execute (S n) conn "SELECT 1" with
      | Some cause => (Some cause, 2%nat)
      | None => (conn_close (S (S n)) conn, 3%nat)
      end
  end.

(** The session that [Session(host, token, http_path)] builds in state [w]. *)
Definition new_session (w : World) (host token http_path : string) : Session :=
  {| id := uuid4 (uuid_draws w); host := host; token := token;
     http_path := http_path; created_at := clock (clock_reads w);
     last_used := clock (S (clock_reads w)); expiry := one_hour |}.

Definition logged_out : string :=
  "Successfully logged out. Your session has been destroyed.".
Definition logout_not_found : string :=
  "Session not found. It may have expired or been invalid.".

Definition logout (session_id : string) : M string :=
  store <- get_sessions ;;
  if bool_decide (is_Some (store !! session_id)) then
    put_sessions (delete session_id store) ;;;
    ret logged_out
  else
    ret logout_not_found.

Definition status_not_found : string :=
  "Session not found or expired. Please login again.".

Definition status_message (session : Session) (minutes : Z) : string :=
  nl +:+ "## Session Status" +:+ nl +:+
  nl +:+ "**Session ID**: " +:+ id session +:+
  nl +:+ "**Host**: " +:+ host session +:+
  nl +:+ "**Created**: " +:+ strftime (created_at session) +:+
  nl +:+ "**Expires in**: " +:+ pretty minutes +:+ " minutes" +:+ nl +:+
  nl +:+ "Your session is active." +:+
  nl +:+ "    ".

Definition session_status (session_id : string) : M string :=
  session <- get_session session_id ;;
  match session with
  | None => ret status_not_found
  | Some session =>
      now <- datetime_now ;;
      let expires_in := expiry session - (now - last_used session) in
      let minutes := minutes_of expires_in in
      ret (status_message session minutes)
  end.

(** *** Sequences of calls *)

(** The entry points through which the session store is reached.  The
    resource [get_schema] and the tools [run_sql_query] and [list_jobs]
    reach it through [get_databricks_connection] and
    [databricks_api_request] only; what they do afterwards is traffic with
    the driver, [CallDriver] for each call of it, which reads neither the
    store, nor the clock, nor the identifier generator. *)
Inductive Call : Type :=
  | CallGetSession (session_id : string)
  | CallConnection (session_id : option string)
  | CallApiRequest (session_id : option string)
  | CallLogin (host token http_path : string)
  | CallLogout (session_id : string)
  | CallStatus (session_id : string)
  | CallDriver.

Definition run_call (c : Call) (w : World) : World :=
  match c with
  | CallGetSession sid => (get_session sid w).2
  | CallConnection sid => (get_databricks_connection sid w).2
  | CallApiRequest sid => (api_credentials sid w).2
  | CallLogin h t p => (login h t p w).2
  | CallLogout sid => (logout sid w).2
  | CallStatus sid => (session_status sid w).2
  | CallDriver => tick_driver w
  end.

Definition run_calls (cs : list Call) (w : World) : World :=
  foldl (λ w c, run_call c w) w cs.


(** *** The ways the store changes *)

(** Two sessions agree on the fields fixed at creation. *)
Definition same_credentials (s s' : Session) : Prop :=
  id s' = id s ∧ host s' = host s ∧ token s' = token s
  ∧ http_path s' = http_path s.

(** One call changes the store in one of four ways: not at all; by deleting
    a key; by setting [last_used] of one entry to a clock reading taken
    during the call; by storing a newly built session under the next
    identifier. *)
Inductive store_step (w w' : World) : Prop :=
  | step_same :
      sessions w' = sessions w →
      (clock_reads w ≤ clock_reads w')%nat →
      uuid_draws w' = uuid_draws w →
      store_step w w'
  | step_delete (session_id : string) :
      sessions w' = delete session_id (sessions w) →
      (clock_reads w ≤ clock_reads w')%nat →
      uuid_draws w' = uuid_draws w →
      store_step w w'
  | step_touch (session_id : string) (s : Session) (j : nat) :
      sessions w !! session_id = Some s →
      sessions w' = <[session_id := set_last_used (clock j) s]> (sessions w) →
      (clock_reads w ≤ j < clock_reads w')%nat →
      uuid_draws w' = uuid_draws w →
      store_step w w'
  | step_create (h t p : string) :
      sessions w' = <[uuid4 (uuid_draws w) := new_session w h t p]> (sessions w) →
      clock_reads w' = (2 + clock_reads w)%nat →
      uuid_draws w' = S (uuid_draws w) →
      store_step w w'.

(** Every stored session sits under its own identifier, which the generator
    has already drawn, expires after one hour, and carries two clock
    readings already taken, [created_at] no later in the sequence of
    readings than [last_used]. *)
Definition stamped (w : World) : Prop :=
  ∀ session_id s,
    sessions w !! session_id = Some s →
    id s = session_id ∧ expiry s = one_hour
    ∧ (∃ n : nat, (n < uuid_draws w)%nat ∧ session_id = uuid4 n)
    ∧ ∃ i j : nat, (i ≤ j < clock_reads w)%nat
                   ∧ created_at s = clock i ∧ last_used s = clock j.

(** *** The tools that use a connection (lines 191-252) *)

(** More of the SQL driver.  [cursor_tables] is
    [conn.cursor().tables().fetchall()] with the three attributes of every
    row as the f-string of line 206 formats them.  [cursor_query] is
    [conn.cursor().execute(sql)] as lines 229-243 read it: the names
    [col[0]] of [result.description], none if the description is [None] or
    empty, and the rows of [result.fetchall()] with [str(cell)] for every
    cell, not fetched if there is no description.  [inl cause] is an
    exception raised anywhere on the way. *)
Variable cursor_tables :
  nat → Connection → string + list (string * string * string).
Variable cursor_query :
  nat → Connection → string → string + (list string * list (list string)).

Definition fetch_tables (conn : Connection)
  : M (list (string * string * string)) :=
  λ w, match cursor_tables (driver_calls w) conn with
       | inr tables => (Ok tables, tick_driver w)
       | inl cause => (Raise (DriverError cause), tick_driver w)
       end.

Definition fetch_query (conn : Connection) (sql : string)
  : M (list string * list (list string)) :=
  λ w, match cursor_query (driver_calls w) conn sql with
       | inr result => (Ok result, tick_driver w)
       | inl cause => (Raise (DriverError cause), tick_driver w)
       end.

(** The shape the two tools share:
    [try: conn = acquire; body  except Exception as e: handler
     finally: if 'conn' in locals(): conn.close()].
    When [acquire] raises, [conn] is not bound and nothing is closed. *)
Definition try_with_conn {A} (acquire : M Connection)
    (body : Connection → M A) (handler : exn → M A) : M A :=
  λ w, match acquire w with
       | (Raise e, w1) => handler e w1
       | (Ok conn, w1) =>
           try_finally (try_except (body conn) handler) (close conn) w1
       end.

Definition table_info_line (table : string * string * string) : string :=
  "Database: " +:+ table.1.1 +:+ ", Schema: " +:+ table.1.2
  +:+ ", Table: " +:+ table.2.

(** Lines 204-208: the text [get_schema] returns for the rows fetched. *)
Definition schema_text (tables : list (string * string * string)) : string :=
  let table_info :=
    foldl (λ table_info table,
             (table_info ++ [table_info_line table])%list)
      [] tables in
  String.concat nl table_info.

Definition get_schema (session_id : option string) : M string :=
  try_with_conn (get_databricks_connection session_id)
    (λ conn,
       tables <- fetch_tables conn ;;
       ret (schema_text tables))
    (λ e, ret ("Error retrieving tables: " +:+ str e)).

Definition no_results : string :=
  "Query executed successfully. No results returned.".

Definition table_row (cells : list string) : string :=
  "| " +:+ String.concat " | " cells +:+ " |" +:+ nl.

(** Lines 229-247: the text [run_sql_query] returns for the column names
    and the rows of the result. *)
Definition result_text (columns : list string) (rows : list (list string))
  : string :=
  match columns with
  | _ :: _ =>
      match rows with
      | [] => no_results
      | _ :: _ =>
          let table := table_row columns in
          let table := table +:+ table_row (map (λ _, "---") columns) in
          let table :=
            foldl (λ table row, table +:+ table_row row) table rows in
          table
      end
  | [] => no_results
  end.

Definition run_sql_query (sql : string) (session_id : option string)
  : M string :=
  try_with_conn (get_databricks_connection session_id)
    (λ conn,
       result <- fetch_query conn sql ;;
       ret (result_text result.1 result.2))
    (λ e, ret ("Error executing query: " +:+ str e)).

(** *** databricks_api_request and list_jobs (lines 79-111 and 254-283) *)

(** [str.upper] on a string with a character outside ASCII. *)
Variable upper_unicode : string → string.

Definition upper (s : string) : string :=
  if is_ascii s then map_ascii upper_ascii s else upper_unicode s.

(** The HTTP client.  The calls that go out share the counter of the SQL
    driver, and their exceptions are [DriverError]s too. *)
Variable Response : Type.
Variable requests_get :
  nat → string → list (string * string) → string + Response.
Variable requests_post :
  nat → string → list (string * string) → option Json → string + Response.
Variable raise_for_status : Response → option string.
Variable response_json : Response → string + Json.

Definition http_get (url : string) (headers : list (string * string))
  : M Response :=
  λ w, match requests_get (driver_calls w) url headers with
       | inr response => (Ok response, tick_driver w)
       | inl cause => (Raise (DriverError cause), tick_driver w)
       end.

Definition http_post (url : string) (headers : list (string * string))
    (data : option Json) : M Response :=
  λ w, match requests_post (driver_calls w) url headers data with
       | inr response => (Ok response, tick_driver w)
       | inl cause => (Raise (DriverError cause), tick_driver w)
       end.

Definition unsupported_method (method : string) : exn :=
  ValueError ("Unsupported HTTP method: " +:+ method).

(** Lines 110-111: [response.raise_for_status(); return response.json()];
    [inl] is the [str] of the exception raised. *)
Definition read_response (response : Response) : string + Json :=
  match raise_for_status response with
  | Some cause => inl cause
  | None => response_json response
  end.

Definition request_headers (token : string) : list (string * string) :=
  [("Authorization", "Bearer " +:+ token);
   ("Content-Type", "application/json")].

Definition request_url (host endpoint : string) : string :=
  "https://" +:+ host +:+ "/api/2.0/" +:+ endpoint.

Definition databricks_api_request (endpoint method : string)
    (data : option Json) (session_id : option string) : M Json :=
  ht <- api_credentials session_id ;;
  let '(host, token) := ht in
  let headers := request_headers token in
  let url := request_url host endpoint in
  response <- (if String.eqb (upper method) "GET" then http_get url headers
               else if String.eqb (upper method) "POST"
                    then http_post url headers data
                    else raise (unsupported_method method)) ;;
  match read_response response with
  | inl cause => raise (DriverError cause)
  | inr json => ret json
  end.

(** [str] of a list or a dict. *)
Variable py_repr : Json → string.

(** What [{v}] in an f-string becomes. *)
Definition format_value (v : Json) : string :=
  match v with
  | JAtom a => str_atom a
  | JStr s => s
  | JList _ | JDict _ => py_repr v
  end.

(** Lines 275-279, the body of the loop: the row for one job, or the [str]
    of the exception a [get] raises. *)
Definition job_row (job : Json) : string + string :=
  match py_get job "job_id" (JStr "N/A") with
  | inl e => inl e
  | inr job_id =>
      match py_get job "settings" (JDict []) with
      | inl e => inl e
      | inr settings =>
          match py_get settings "name" (JStr "N/A") with
          | inl e => inl e
          | inr job_name =>
              match py_get job "created_by" (JStr "N/A") with
              | inl e => inl e
              | inr created_by =>
                  inr ("| " +:+ format_value job_id +:+ " | "
                       +:+ format_value job_name +:+ " | "
                       +:+ format_value created_by +:+ " |" +:+ nl)
              end
          end
      end
  end.

(** The loop of lines 274-279: [table] grows by one row per job; the first
    exception ends it. *)
Fixpoint jobs_loop (table : string) (jobs : list Json) : string + string :=
  match jobs with
  | [] => inr table
  | job :: jobs' =>
      match job_row job with
      | inl e => inl e
      | inr row => jobs_loop (table +:+ row) jobs'
      end
  end.

Definition jobs_header : string :=
  "| Job ID | Job Name | Created By |" +:+ nl +:+
  "| ------ | -------- | ---------- |" +:+ nl.

(** Lines 265-281, what [list_jobs] makes of the response: the text it
    returns, or the [str] of the exception raised on the way. *)
Definition jobs_listing (response : Json) : string + string :=
  match py_get response "jobs" (JAtom ANone) with
  | inl e => inl e
  | inr found =>
      if negb (json_truthy found) then inr "No jobs found."
      else
        match py_get response "jobs" (JList []) with
        | inl e => inl e
        | inr jobs =>
            match py_iter jobs with
            | inl e => inl e
            | inr elements => jobs_loop jobs_header elements
            end
        end
  end.

(** An exception of lines 265-281 is caught by the handler of line 282 like
    one of the request; the handler uses its [str] only. *)
Definition list_jobs (session_id : option string) : M string :=
  try_except
    (response <- databricks_api_request "jobs/list" "GET" None session_id ;;
     match jobs_listing response with
     | inr text => ret text
     | inl e => ret ("Error listing jobs: " +:+ e)
     end)
    (λ e, ret ("Error listing jobs: " +:+ str e)).

(** A call that names the session id [sid], and a call that may add an
    entry to the store. *)
Definition names (sid : string) (c : Call) : Prop :=
  match c with
  | CallGetSession s | CallLogout s | CallStatus s => s = sid
  | CallConnection o | CallApiRequest o => o = Some sid
  | CallLogin _ _ _ | CallDriver => False
  end.

Definition is_login (c : Call) : Prop :=
  match c with
  | CallLogin _ _ _ => True
  | _ => False
  end.

(** ** Stepping through the code *)

Ltac run :=
  unfold connection_details, get_databricks_connection, api_credentials,
    login, logout, session_status, get_session, Session_init,
    update_last_used, is_expired, connect, execute, close, datetime_now,
    uuid_uuid4, try_except, bind, ret, raise, get_sessions, put_sessions;
  simpl.

(** What [get_session] does, as one equation: the first clock reading of the
    call decides expiry, the second is the new [last_used]. *)
Lemma get_session_eq (session_id : string) (w : World) :
  get_session session_id w =
  match sessions w !! session_id with
  | None => (Ok None, w)
  | Some s =>
      if bool_decide (clock (clock_reads w) - last_used s > expiry s) then
        (Ok None, set_sessions (delete session_id (sessions w)) (tick_clock w))
      else
        let s' := set_last_used (clock (S (clock_reads w))) s in
        (Ok (Some s'),
         set_sessions (<[session_id := s']> (sessions w))
           (tick_clock (tick_clock w)))
  end.
Proof.
  run. destruct (sessions w !! session_id) as [s|]; [|reflexivity].
  simpl. case_bool_decide; reflexivity.
Qed.

(** C1: [get_session] on an absent id returns [None] and changes nothing; on
    an entry whose age at the lookup exceeds its expiry it deletes the entry
    and returns [None], and so does the next lookup of the same id; on a
    live entry it sets [last_used] to the clock reading taken by the update,
    keeps the updated session in the store and returns it. *)
Theorem get_session_cases (session_id : string) (w : World) :
  match sessions w !! session_id with
  | None => get_session session_id w = (Ok None, w)
  | Some s =>
      if bool_decide (clock (clock_reads w) - last_used s > expiry s) then
        let w' := set_sessions (delete session_id (sessions w)) (tick_clock w) in
        get_session session_id w = (Ok None, w')
        ∧ sessions w' !! session_id = None
        ∧ get_session session_id w' = (Ok None, w')
      else
        let s' := set_last_used (clock (S (clock_reads w))) s in
        let w' := set_sessions (<[session_id := s']> (sessions w))
                    (tick_clock (tick_clock w)) in
        get_session session_id w = (Ok (Some s'), w')
        ∧ last_used s' = clock (S (clock_reads w))
        ∧ sessions w' !! session_id = Some s'
  end.
Proof.
  pose proof (get_session_eq session_id w) as E.
  destruct (sessions w !! session_id) as [s|] eqn:L; [|exact E].
  case_bool_decide.
  - cbn zeta. split; [exact E|].
    assert (D : delete session_id (sessions w) !! session_id = None)
      by apply lookup_delete_eq.
    split; [exact D|].
    rewrite get_session_eq. simpl. rewrite D. reflexivity.
  - cbn zeta. split; [exact E|]. split; [reflexivity|].
    simpl. apply lookup_insert_eq.
Qed.


(** What [login] does, as one equation. *)
Lemma login_eq (host token http_path : string) (w : World) :
  login host token http_path w =
  match probe (driver_calls w) host token http_path with
  | (Some cause, n) =>
      (Ok (login_failure (DriverError cause)), add_driver_calls n w)
  | (None, n) =>
      let s := new_session w host token http_path in
      (Ok (login_message host (id s)),
       set_sessions (<[id s := s]> (sessions w))
         (tick_clock (tick_clock (tick_uuid (add_driver_calls n w)))))
  end.
Proof.
  run. unfold probe.
  destruct (sql_connect _ _ _ _) as [cause|conn]; simpl; [reflexivity|].
  destruct (cursor_execute _ _ _) as [cause|]; simpl; [reflexivity|].
  destruct (conn_close _ _) as [cause|]; simpl; reflexivity.
Qed.

(** C4: when the probe of [login] fails, whichever driver call raised,
    [login] reports the failure with the cause in it, and the session store,
    the clock and the identifier generator are as they were. *)
Theorem login_probe_failure (host token http_path cause : string) (w : World) :
  (probe (driver_calls w) host token http_path).1 = Some cause →
  ∃ w', login host token http_path w
          = (Ok ("Authentication failed: " +:+ cause), w')
        ∧ sessions w' = sessions w
        ∧ clock_reads w' = clock_reads w
        ∧ uuid_draws w' = uuid_draws w.
Proof.
  intros P. rewrite login_eq.
  destruct (probe _ _ _ _) as [[c|] n]; simpl in P; [|discriminate].
  injection P as ->. eexists. split; [reflexivity|]. by simpl.
Qed.


(** What [logout] does, as one equation. *)
Lemma logout_eq (session_id : string) (w : World) :
  logout session_id w =
  match sessions w !! session_id with
  | Some _ => (Ok logged_out, set_sessions (delete session_id (sessions w)) w)
  | None => (Ok logout_not_found, w)
  end.
Proof.
  run. destruct (sessions w !! session_id) as [s|] eqn:L.
  - rewrite bool_decide_eq_true_2 by eauto. reflexivity.
  - rewrite bool_decide_eq_false_2 by (intros [? ?]; discriminate). reflexivity.
Qed.



(** Run one after the other, a [logout] and a lookup of the same id: the
    lookup finds nothing. *)
Lemma get_session_after_logout (session_id : string) (w : World) :
  get_session session_id (logout session_id w).2
  = (Ok None, (logout session_id w).2).
Proof.
  rewrite logout_eq, get_session_eq.
  destruct (sessions w !! session_id) as [s|] eqn:L; simpl.
  - by rewrite lookup_delete_eq.
  - by rewrite L.
Qed.

(** What [session_status] does, as one equation: a live session is touched
    at the second clock reading of the call, and the third reading is the
    [now] of the remaining time. *)
Lemma session_status_eq (session_id : string) (w : World) :
  session_status session_id w =
  match sessions w !! session_id with
  | None => (Ok status_not_found, w)
  | Some s =>
      if bool_decide (clock (clock_reads w) - last_used s > expiry s) then
        (Ok status_not_found,
         set_sessions (delete session_id (sessions w)) (tick_clock w))
      else
        let s' := set_last_used (clock (S (clock_reads w))) s in
        let remaining :=
          expiry s' - (clock (S (S (clock_reads w))) - last_used s') in
        (Ok (status_message s' (minutes_of remaining)),
         set_sessions (<[session_id := s']> (sessions w))
           (tick_clock (tick_clock (tick_clock w))))
  end.
Proof.
  unfold session_status, bind. rewrite get_session_eq.
  destruct (sessions w !! session_id) as [s|]; [|reflexivity].
  case_bool_decide; reflexivity.
Qed.

(** The state [login] leaves after a successful probe. *)
Lemma login_success_state (h t p : string) (w : World) :
  (probe (driver_calls w) h t p).1 = None →
  ∃ n, (login h t p w).1 = Ok (login_message h (uuid4 (uuid_draws w)))
       ∧ (login h t p w).2
         = set_sessions
             (<[uuid4 (uuid_draws w) := new_session w h t p]> (sessions w))
             (tick_clock (tick_clock (tick_uuid (add_driver_calls n w)))).
Proof.
  intros P. rewrite login_eq.
  destruct (probe _ _ _ _) as [[c|] n]; simpl in P; [discriminate|].
  by exists n.
Qed.

(** C6: [session_status] goes through [get_session].  On an absent or
    expired id it returns the text that the session was not found.  On a
    live one it returns the text below with the identifier, the host, the
    creation time and the minutes of
    [remaining = expiry - (now - last_used)], where [last_used] is the one
    the lookup has just set and [now] the next clock reading; the minutes
    are [int(remaining.total_seconds() / 60)].  After a successful [login],
    the status of the new identifier, asked while the session is live, shows
    that identifier, the host given to [login], the first clock reading of
    the [login] as creation time, and the minutes of [expiry - d] with [d]
    the time between two successive clock readings of the call. *)
Theorem session_status_cases (session_id : string) (w : World) :
  let text (i h created minutes : string) :=
    nl +:+ "## Session Status" +:+ nl +:+
    nl +:+ "**Session ID**: " +:+ i +:+
    nl +:+ "**Host**: " +:+ h +:+
    nl +:+ "**Created**: " +:+ created +:+
    nl +:+ "**Expires in**: " +:+ minutes +:+ " minutes" +:+ nl +:+
    nl +:+ "Your session is active." +:+
    nl +:+ "    " in
  let minutes (remaining : Z) :=
    int_of_float (float_div (total_seconds remaining) (float_of_int 60)) in
  match sessions w !! session_id with
  | None =>
      session_status session_id w
      = (Ok "Session not found or expired. Please login again.", w)
  | Some s =>
      if bool_decide (clock (clock_reads w) - last_used s > expiry s) then
        session_status session_id w
          = (Ok "Session not found or expired. Please login again.",
             set_sessions (delete session_id (sessions w)) (tick_clock w))
      else
        let s' := set_last_used (clock (S (clock_reads w))) s in
        let w' := set_sessions (<[session_id := s']> (sessions w))
                    (tick_clock (tick_clock w)) in
        let now := clock (S (S (clock_reads w))) in
        let remaining := expiry s' - (now - last_used s') in
        get_session session_id w = (Ok (Some s'), w')
        ∧ remaining
          = expiry s - (clock (S (S (clock_reads w))) - clock (S (clock_reads w)))
        ∧ session_status session_id w
            = (Ok (text (id s) (host s) (strftime (created_at s))
                     (pretty (minutes remaining))),
               tick_clock w')
  end
  ∧ ∀ h t p,
      (probe (driver_calls w) h t p).1 = None →
      clock (2 + clock_reads w) - clock (1 + clock_reads w) ≤ one_hour →
      let k := clock_reads w in
      let remaining := 3600000000 - (clock (4 + k) - clock (3 + k)) in
      ∃ w',
        (login h t p w).1 = Ok (login_message h (uuid4 (uuid_draws w)))
        ∧ session_status (uuid4 (uuid_draws w)) (login h t p w).2
          = (Ok (text (uuid4 (uuid_draws w)) h (strftime (clock k))
                   (pretty (minutes remaining))),
             w').
Proof.
  intros text minutes. split.
  - pose proof (session_status_eq session_id w) as E.
    pose proof (get_session_eq session_id w) as G.
    destruct (sessions w !! session_id) as [s|]; [|exact E].
    case_bool_decide; [exact E|]. cbn zeta in *.
    split; [exact G|]. split; [reflexivity|]. exact E.
  - intros h t p P Live k remaining.
    destruct (login_success_state h t p w P) as (n & -> & ->).
    rewrite session_status_eq. simpl. rewrite lookup_insert_eq. simpl.
    rewrite bool_decide_eq_false_2 by (unfold one_hour in *; simpl in Live; lia).
    eexists. split; reflexivity.
Qed.

(** Polling: what one [session_status] of a live session leaves behind. *)
Lemma session_status_live (session_id : string) (s : Session) (w : World) :
  sessions w !! session_id = Some s →
  clock (clock_reads w) - last_used s ≤ expiry s →
  let s' := set_last_used (clock (1 + clock_reads w)) s in
  let remaining :=
    expiry s - (clock (2 + clock_reads w) - clock (1 + clock_reads w)) in
  session_status session_id w
    = (Ok (status_message s' (minutes_of remaining)),
       set_sessions (<[session_id := s']> (sessions w))
         (tick_clock (tick_clock (tick_clock w)))).
Proof.
  intros L Live. rewrite session_status_eq, L.
  rewrite bool_decide_eq_false_2 by lia. reflexivity.
Qed.

Lemma run_calls_cons (c : Call) (cs : list Call) (w : World) :
  run_calls (c :: cs) w = run_calls cs (run_call c w).
Proof. reflexivity. Qed.

Lemma poll_keeps_alive (session_id : string) (n : nat) :
  ∀ (w : World) (s : Session),
    sessions w !! session_id = Some s →
    clock (clock_reads w) - last_used s ≤ expiry s →
    (∀ j : nat, (1 ≤ j < n)%nat →
       clock (clock_reads w + 3 * j) - clock (clock_reads w + 3 * j - 2)
       ≤ expiry s) →
    let w' := run_calls (replicate n (CallStatus session_id)) w in
    ∃ s', sessions w' !! session_id = Some s'
          ∧ expiry s' = expiry s
          ∧ clock_reads w' = (clock_reads w + 3 * n)%nat
          ∧ (n ≠ 0%nat →
             last_used s' = clock (clock_reads w + 3 * n - 2)).
Proof.
  induction n as [|n IH]; intros w s L Live Gaps.
  - simpl. exists s. repeat split; [done|lia|done].
  - cbn zeta. simpl replicate. rewrite run_calls_cons. simpl run_call.
    rewrite (session_status_live _ _ _ L Live). simpl snd.
    set (s1 := set_last_used _ s). set (w1 := set_sessions _ _).
    assert (L1 : sessions w1 !! session_id = Some s1)
      by (simpl; apply lookup_insert_eq).
    assert (K1 : clock_reads w1 = (clock_reads w + 3)%nat) by (simpl; lia).
    destruct n as [|n].
    + change (run_calls (replicate 0 (CallStatus session_id)) w1) with w1.
      exists s1. split; [exact L1|]. split; [reflexivity|].
      split; [rewrite K1; lia|].
      intros _. simpl. f_equal. lia.
    + destruct (IH w1 s1 L1) as (s' & L' & E' & K' & U').
      * rewrite K1. simpl last_used. simpl expiry.
        specialize (Gaps 1%nat ltac:(lia)).
        replace (clock_reads w + 3 * 1)%nat with (clock_reads w + 3)%nat
          in Gaps by lia.
        replace (clock_reads w + 3 - 2)%nat with (1 + clock_reads w)%nat
          in Gaps by lia.
        exact Gaps.
      * intros j Hj. rewrite K1. simpl expiry.
        specialize (Gaps (S j) ltac:(lia)).
        replace (clock_reads w + 3 + 3 * j)%nat
          with (clock_reads w + 3 * S j)%nat by lia.
        exact Gaps.
      * exists s'. split; [exact L'|]. split; [by rewrite E'|].
        split; [rewrite K', K1; lia|].
        intros _. rewrite U' by lia. f_equal. rewrite K1. lia.
Qed.

(** C9: at any state, [session_status] of a live session returns the text
    below, with the minutes of [remaining = expiry - d], where [d] is the
    time between the clock reading that became [last_used] and the next
    one: the full expiry when the two readings agree.  It leaves the session
    in the store with that new [last_used].  Hence after any number of
    polls, each made no later than [expiry] after the new [last_used] of the
    previous one, the session is still there. *)
Theorem session_status_keeps_alive
    (session_id : string) (s : Session) (w : World) :
  sessions w !! session_id = Some s →
  clock (clock_reads w) - last_used s ≤ expiry s →
  let k := clock_reads w in
  let text (i h created minutes : string) :=
    nl +:+ "## Session Status" +:+ nl +:+
    nl +:+ "**Session ID**: " +:+ i +:+
    nl +:+ "**Host**: " +:+ h +:+
    nl +:+ "**Created**: " +:+ created +:+
    nl +:+ "**Expires in**: " +:+ minutes +:+ " minutes" +:+ nl +:+
    nl +:+ "Your session is active." +:+
    nl +:+ "    " in
  let minutes (remaining : Z) :=
    int_of_float (float_div (total_seconds remaining) (float_of_int 60)) in
  (∃ s' w',
     session_status session_id w
       = (Ok (text (id s) (host s) (strftime (created_at s))
                (pretty (minutes (expiry s - (clock (2 + k) - clock (1 + k)))))),
          w')
     ∧ sessions w' !! session_id = Some s'
     ∧ last_used s' = clock (1 + k)
     ∧ expiry s' - (clock (2 + k) - last_used s')
         = expiry s - (clock (2 + k) - clock (1 + k))
     ∧ (clock (2 + k) = clock (1 + k) →
        expiry s' - (clock (2 + k) - last_used s') = expiry s))
  ∧ ∀ n : nat,
      (∀ j : nat, (1 ≤ j < n)%nat →
         clock (k + 3 * j) - clock (k + 3 * j - 2) ≤ expiry s) →
      ∃ s', sessions (run_calls (replicate n (CallStatus session_id)) w)
              !! session_id = Some s'
            ∧ expiry s' = expiry s
            ∧ (n ≠ 0%nat → last_used s' = clock (k + 3 * n - 2)).
Proof.
  intros L Live k text minutes. split.
  - rewrite (session_status_live _ _ _ L Live).
    eexists _, _. split; [reflexivity|].
    split; [apply lookup_insert_eq|]. split; [reflexivity|].
    split; [reflexivity|]. intros E. cbn [set_last_used last_used expiry].
    fold k. rewrite E. lia.
  - intros n Gaps.
    destruct (poll_keeps_alive session_id n w s L Live Gaps)
      as (s' & L' & E' & _ & U').
    by exists s'.
Qed.

(** ** Credential resolution *)

Lemma truthy_Some (s : string) : truthy (Some s) = true ↔ s ≠ EmptyString.
Proof.
  simpl. destruct (String.eqb_spec s EmptyString); simpl; split; congruence.
Qed.

Lemma truthy_false (o : option string) :
  truthy o = false ↔ o = None ∨ o = Some EmptyString.
Proof.
  destruct o as [s|]; simpl.
  - destruct (String.eqb_spec s EmptyString) as [->|N]; simpl.
    + split; auto.
    + split; [discriminate|]. intros [?|?]; congruence.
  - split; auto.
Qed.

(** [get_session] never raises. *)
Lemma get_session_returns (session_id : string) (w : World) :
  ∃ r w', get_session session_id w = (Ok r, w').
Proof.
  rewrite get_session_eq. destruct (sessions w !! session_id) as [s|].
  - case_bool_decide; cbn zeta; eauto.
  - eauto.
Qed.

Lemma connection_details_session (session_id : string) (w : World) :
  session_id ≠ EmptyString →
  connection_details (Some session_id) w =
  match get_session session_id w with
  | (Ok None, w') => (Raise invalid_session, w')
  | (Ok (Some s), w') =>
      (if all [Some (host s); Some (token s); Some (http_path s)]
       then Ok (host s, token s, http_path s)
       else Raise missing_connection_details, w')
  | (Raise e, w') => (Raise e, w')
  end.
Proof.
  intros N. apply truthy_Some in N.
  unfold connection_details, bind. rewrite N. unfold the at 1. simpl default.
  destruct (get_session session_id w) as [[[s|]|e] w']; try reflexivity.
  unfold ret at 1. cbv beta iota.
  destruct (all _); reflexivity.
Qed.

Lemma api_credentials_session (session_id : string) (w : World) :
  session_id ≠ EmptyString →
  api_credentials (Some session_id) w =
  match get_session session_id w with
  | (Ok None, w') => (Raise invalid_session, w')
  | (Ok (Some s), w') =>
      (if all [Some (host s); Some (token s)]
       then Ok (host s, token s)
       else Raise missing_api_credentials, w')
  | (Raise e, w') => (Raise e, w')
  end.
Proof.
  intros N. apply truthy_Some in N.
  unfold api_credentials, bind. rewrite N. unfold the at 1. simpl default.
  destruct (get_session session_id w) as [[[s|]|e] w']; try reflexivity.
  unfold ret at 1. cbv beta iota.
  destruct (all _); reflexivity.
Qed.

Lemma get_databricks_connection_eq (session_id : option string) (w : World) :
  get_databricks_connection session_id w =
  match connection_details session_id w with
  | (Ok (h, t, p), w') => connect h p t w'
  | (Raise e, w') => (Raise e, w')
  end.
Proof.
  unfold get_databricks_connection, bind.
  destruct (connection_details session_id w) as [[[[h t] p]|e] w'];
    reflexivity.
Qed.


(** C2, as the code has it.  For a session id that is not the empty string,
    both resolvers go through [get_session].  If it returns [None], that
    is if the id is absent or its entry expired, they raise
    [ValueError("Invalid or expired session ID")].  Otherwise the session
    returned carries the credentials of the stored entry, and
    [get_databricks_connection] hands exactly its host, http_path and token
    to [connect], [databricks_api_request] takes exactly its host and
    token; a session with an empty credential among these makes them raise
    the missing-credentials [ValueError] instead. *)
Theorem resolve_session_credentials (session_id : string) (w : World) :
  session_id ≠ EmptyString →
  ∃ r w',
    get_session session_id w = (Ok r, w')
    ∧ match r with
      | None =>
          match sessions w !! session_id with
          | None => True
          | Some s0 => clock (clock_reads w) - last_used s0 > expiry s0
          end
          ∧ connection_details (Some session_id) w
              = (Raise invalid_session, w')
          ∧ get_databricks_connection (Some session_id) w
              = (Raise invalid_session, w')
          ∧ api_credentials (Some session_id) w
              = (Raise invalid_session, w')
      | Some s =>
          (∃ s0, sessions w !! session_id = Some s0
                 ∧ clock (clock_reads w) - last_used s0 ≤ expiry s0
                 ∧ (host s, token s, http_path s)
                     = (host s0, token s0, http_path s0))
          ∧ connection_details (Some session_id) w
              = (if all [Some (host s); Some (token s); Some (http_path s)]
                 then Ok (host s, token s, http_path s)
                 else Raise missing_connection_details, w')
          ∧ get_databricks_connection (Some session_id) w
              = (if all [Some (host s); Some (token s); Some (http_path s)]
                 then connect (host s) (http_path s) (token s) w'
                 else (Raise missing_connection_details, w'))
          ∧ api_credentials (Some session_id) w
              = (if all [Some (host s); Some (token s)]
                 then Ok (host s, token s)
                 else Raise missing_api_credentials, w')
      end.
Proof.
  intros N.
  pose proof (connection_details_session session_id w N) as C.
  pose proof (api_credentials_session session_id w N) as A.
  pose proof (get_databricks_connection_eq (Some session_id) w) as D.
  pose proof (get_session_eq session_id w) as G.
  destruct (get_session session_id w) as [[[s|]|e] w'] eqn:E.
  - exists (Some s), w'. split; [reflexivity|]. split.
    + destruct (sessions w !! session_id) as [s0|]; [|discriminate].
      exists s0. split; [reflexivity|].
      case_bool_decide; [discriminate|]. cbn zeta in G.
      injection G as -> _. split; [lia|reflexivity].
    + split; [exact C|]. split; [|exact A].
      rewrite D, C. destruct (all _); reflexivity.
  - exists None, w'. split; [reflexivity|]. split.
    + destruct (sessions w !! session_id) as [s0|]; [|exact I].
      case_bool_decide; [assumption|discriminate].
    + split; [exact C|]. split; [|exact A]. by rewrite D, C.
  - destruct (get_session_returns session_id w) as (r & w'' & E').
    congruence.
Qed.

(** C3, as the code has it.  With no session id, or the empty string for
    one, nothing is looked up and the state is unchanged.
    [get_databricks_connection] hands the three environment values to
    [connect] as they are if all three are set and not empty, and raises
    [ValueError("Missing required Databricks connection details")] if one of
    them is unset or empty.  [databricks_api_request] reads the host and the
    token only: it takes them as they are if both are set and not empty,
    whatever the http path is, and raises
    [ValueError("Missing required Databricks API credentials")] if one of
    the two is unset or empty. *)
Theorem resolve_environment_credentials
    (session_id : option string) (w : World) :
  truthy session_id = false →
  let H := getenv "DATABRICKS_HOST" in
  let T := getenv "DATABRICKS_TOKEN" in
  let P := getenv "DATABRICKS_HTTP_PATH" in
  connection_details session_id w
    = (if all [H; T; P] then Ok (the H, the T, the P)
       else Raise missing_connection_details, w)
  ∧ get_databricks_connection session_id w
    = (if all [H; T; P] then connect (the H) (the P) (the T) w
       else (Raise missing_connection_details, w))
  ∧ api_credentials session_id w
    = (if all [H; T] then Ok (the H, the T)
       else Raise missing_api_credentials, w)
  ∧ (∀ h t p, H = Some h → T = Some t → P = Some p →
       h ≠ EmptyString → t ≠ EmptyString → p ≠ EmptyString →
       all [H; T; P] = true ∧ (the H, the T, the P) = (h, t, p))
  ∧ (∀ h t, H = Some h → T = Some t →
       h ≠ EmptyString → t ≠ EmptyString →
       all [H; T] = true ∧ (the H, the T) = (h, t))
  ∧ (all [H; T; P] = false
     ↔ truthy H = false ∨ truthy T = false ∨ truthy P = false)
  ∧ (all [H; T] = false ↔ truthy H = false ∨ truthy T = false).
Proof.
  intros F H T P.
  assert (C : connection_details session_id w
              = (if all [H; T; P] then Ok (the H, the T, the P)
                 else Raise missing_connection_details, w)).
  { unfold connection_details, bind. rewrite F. unfold ret at 1.
    cbv beta iota. fold H T P. destruct (all _); reflexivity. }
  split; [exact C|]. split.
  { rewrite get_databricks_connection_eq, C. destruct (all _); reflexivity. }
  split.
  { unfold api_credentials, bind. rewrite F. unfold ret at 1.
    cbv beta iota. fold H T. clear C. destruct (all [H; T]); reflexivity. }
  split.
  { intros h t p EH ET EP Nh Nt Np. apply truthy_Some in Nh, Nt, Np.
    rewrite EH, ET, EP. unfold all. simpl. simpl in Nh, Nt, Np.
    rewrite Nh, Nt, Np. by split. }
  split.
  { intros h t EH ET Nh Nt. apply truthy_Some in Nh, Nt.
    rewrite EH, ET. unfold all. simpl. simpl in Nh, Nt.
    rewrite Nh, Nt. by split. }
  unfold all. simpl forallb.
  destruct (truthy H), (truthy T), (truthy P); simpl; intuition congruence.
Qed.


(** ** How calls change the store *)

Lemma store_step_tick_driver (w w' : World) :
  store_step w w' → store_step w (tick_driver w').
Proof.
  intros [E C U|sid E C U|sid s j L E C U|h t p E C U].
  - by apply step_same.
  - by apply (step_delete _ _ sid).
  - by apply (step_touch _ _ sid s j).
  - by apply (step_create _ _ h t p).
Qed.

Lemma get_session_step (session_id : string) (w : World) :
  store_step w (get_session session_id w).2.
Proof.
  rewrite get_session_eq.
  destruct (sessions w !! session_id) as [s|] eqn:L.
  - case_bool_decide; cbn zeta; simpl.
    + apply (step_delete _ _ session_id); simpl; [done|lia|done].
    + apply (step_touch _ _ session_id s (S (clock_reads w)));
        simpl; [done|done|lia|done].
  - by apply step_same.
Qed.

Lemma connection_details_state (session_id : option string) (w : World) :
  (connection_details session_id w).2
  = if truthy session_id then (get_session (the session_id) w).2 else w.
Proof.
  unfold connection_details, bind. destruct (truthy session_id).
  - destruct (get_session _ w) as [[[s|]|e] w']; try reflexivity.
    unfold ret at 1. cbv beta iota. by destruct (negb _).
  - unfold ret at 1. cbv beta iota. by destruct (negb _).
Qed.

Lemma api_credentials_state (session_id : option string) (w : World) :
  (api_credentials session_id w).2
  = if truthy session_id then (get_session (the session_id) w).2 else w.
Proof.
  unfold api_credentials, bind. destruct (truthy session_id).
  - destruct (get_session _ w) as [[[s|]|e] w']; try reflexivity.
    unfold ret at 1. cbv beta iota. by destruct (negb _).
  - unfold ret at 1. cbv beta iota. by destruct (negb _).
Qed.

Lemma connection_details_step (session_id : option string) (w : World) :
  store_step w (connection_details session_id w).2.
Proof.
  rewrite connection_details_state. destruct (truthy session_id).
  - apply get_session_step.
  - by apply step_same.
Qed.

Lemma run_call_step (c : Call) (w : World) : store_step w (run_call c w).
Proof.
  destruct c as [sid|sid|sid|h t p|sid|sid|]; simpl;
    [| | | | | |by apply step_same].
  - apply get_session_step.
  - rewrite get_databricks_connection_eq.
    pose proof (connection_details_step sid w) as D.
    destruct (connection_details sid w) as [[[[h t] p]|e] w']; simpl in *;
      [|exact D].
    unfold connect. destruct (sql_connect _ _ _ _); simpl;
      by apply store_step_tick_driver.
  - rewrite api_credentials_state. destruct (truthy sid).
    + apply get_session_step.
    + by apply step_same.
  - rewrite login_eq. destruct (probe _ _ _ _) as [[cause|] n]; simpl.
    + by apply step_same.
    + by apply (step_create _ _ h t p).
  - rewrite logout_eq. destruct (sessions w !! sid) as [s|]; simpl.
    + by apply (step_delete _ _ sid).
    + by apply step_same.
  - rewrite session_status_eq.
    destruct (sessions w !! sid) as [s|] eqn:L; [|by apply step_same].
    case_bool_decide; cbn zeta; simpl.
    + apply (step_delete _ _ sid); simpl; [done|lia|done].
    + apply (step_touch _ _ sid s (S (clock_reads w)));
        simpl; [done|done|lia|done].
Qed.

Lemma store_step_uuid_draws (w w' : World) :
  store_step w w' → (uuid_draws w ≤ uuid_draws w')%nat.
Proof. intros [E C U|sid E C U|sid s j L E C U|h t p E C U]; lia. Qed.

(** An entry found after a step was there before it, with the same
    credentials, unless the step stored a new session under that key. *)
Lemma store_step_keeps (w w' : World) (session_id : string) (s' : Session) :
  store_step w w' →
  uuid4 (uuid_draws w) ≠ session_id →
  sessions w' !! session_id = Some s' →
  ∃ s, sessions w !! session_id = Some s ∧ same_credentials s s'.
Proof.
  intros [E C U|sid E C U|sid s j L E C U|h t p E C U] N L'; rewrite E in L'.
  - exists s'. by repeat split.
  - apply lookup_delete_Some in L' as [_ L']. exists s'. by repeat split.
  - destruct (decide (sid = session_id)) as [->|Ne].
    + rewrite lookup_insert_eq in L'. injection L' as <-.
      exists s. by repeat split.
    + rewrite lookup_insert_ne in L' by done. exists s'. by repeat split.
  - rewrite lookup_insert_ne in L' by done. exists s'. by repeat split.
Qed.

Lemma same_credentials_trans (s1 s2 s3 : Session) :
  same_credentials s1 s2 → same_credentials s2 s3 → same_credentials s1 s3.
Proof. unfold same_credentials. intuition congruence. Qed.

Lemma run_calls_keeps (session_id : string) (cs : list Call) :
  ∀ (w : World) (s' : Session),
    (∀ n, (uuid_draws w ≤ n)%nat → uuid4 n ≠ session_id) →
    sessions (run_calls cs w) !! session_id = Some s' →
    ∃ s, sessions w !! session_id = Some s ∧ same_credentials s s'.
Proof.
  induction cs as [|c cs IH]; intros w s' Fresh L'.
  - exists s'. by repeat split.
  - rewrite run_calls_cons in L'.
    pose proof (run_call_step c w) as St.
    pose proof (store_step_uuid_draws _ _ St) as Mono.
    destruct (IH (run_call c w) s') as (s1 & L1 & S1); [|exact L'|].
    { intros n Hn. apply Fresh. lia. }
    destruct (store_step_keeps _ _ _ _ St (Fresh (uuid_draws w) ltac:(lia)) L1)
      as (s & L & S0).
    exists s. split; [exact L|]. by apply (same_credentials_trans s s1 s').
Qed.

Lemma stamped_startup : stamped startup.
Proof. intros sid s L. simpl in L. by rewrite lookup_empty in L. Qed.

Lemma store_step_stamped (w w' : World) :
  store_step w w' → stamped w → stamped w'.
Proof.
  intros [E C U|sid E C U|sid s j L E C U|h t p E C U] St sid' s' L';
    rewrite E in L'.
  - destruct (St _ _ L') as (I & X & (n & Bn & Un) & i & j & B & Ci & Cj).
    split; [done|]. split; [done|]. split; [exists n; split; [lia|done]|].
    exists i, j. split; [lia|done].
  - apply lookup_delete_Some in L' as [_ L'].
    destruct (St _ _ L') as (I & X & (n & Bn & Un) & i & j & B & Ci & Cj).
    split; [done|]. split; [done|]. split; [exists n; split; [lia|done]|].
    exists i, j. split; [lia|done].
  - destruct (decide (sid = sid')) as [->|Ne].
    + rewrite lookup_insert_eq in L'. injection L' as <-.
      destruct (St _ _ L) as (I & X & (n & Bn & Un) & i & j0 & B & Ci & Cj).
      split; [done|]. split; [done|]. split; [exists n; split; [lia|done]|].
      exists i, j. split; [lia|done].
    + rewrite lookup_insert_ne in L' by done.
      destruct (St _ _ L') as (I & X & (n & Bn & Un) & i & j0 & B & Ci & Cj).
      split; [done|]. split; [done|]. split; [exists n; split; [lia|done]|].
      exists i, j0. split; [lia|done].
  - destruct (decide (uuid4 (uuid_draws w) = sid')) as [<-|Ne].
    + rewrite lookup_insert_eq in L'. injection L' as <-.
      split; [done|]. split; [done|].
      split; [exists (uuid_draws w); split; [lia|done]|].
      exists (clock_reads w), (S (clock_reads w)). split; [lia|done].
    + rewrite lookup_insert_ne in L' by done.
      destruct (St _ _ L') as (I & X & (n & Bn & Un) & i & j0 & B & Ci & Cj).
      split; [done|]. split; [done|]. split; [exists n; split; [lia|done]|].
      exists i, j0. split; [lia|done].
Qed.

Lemma run_calls_stamped (cs : list Call) :
  ∀ w, stamped w → stamped (run_calls cs w).
Proof.
  induction cs as [|c cs IH]; intros w St; [exact St|].
  rewrite run_calls_cons. apply IH.
  apply (store_step_stamped w); [apply run_call_step|exact St].
Qed.

(** In every state the server reaches, a stored session has
    [last_used >= created_at], provided the clock never steps back. *)
Lemma last_used_after_created (cs : list Call) (session_id : string) (s : Session) :
  (∀ i j : nat, (i ≤ j)%nat → clock i ≤ clock j) →
  sessions (run_calls cs startup) !! session_id = Some s →
  created_at s ≤ last_used s.
Proof.
  intros Mono L.
  destruct (run_calls_stamped cs startup stamped_startup _ _ L)
    as (_ & _ & _ & i & j & B & -> & ->).
  apply Mono. lia.
Qed.


(** In a state the server reaches, the identifier drawn next is not in the
    store, provided the generator never repeats itself. *)
Lemma next_uuid_fresh (cs : list Call) :
  (∀ m n : nat, uuid4 m = uuid4 n → m = n) →
  sessions (run_calls cs startup) !! uuid4 (uuid_draws (run_calls cs startup))
  = None.
Proof.
  intros Inj. destruct (sessions _ !! _) as [s|] eqn:L; [|reflexivity].
  destruct (run_calls_stamped cs startup stamped_startup _ _ L)
    as (_ & _ & (n & Bn & Un) & _).
  apply Inj in Un. lia.
Qed.

(** C5, as the code has it: after a successful probe [login] never fails; it
    takes the next [uuid4] as identifier, builds a session with the given
    credentials, a one-hour expiry, [created_at] the next clock reading and
    [last_used] the reading after that, stores it under its identifier and
    returns the identifier in its message.  Every other key is untouched;
    if the identifier was not in the store, all earlier entries are kept and
    the store has one entry more, and in every state the server reaches the
    identifier is not in the store if the generator never repeats itself.
    [last_used >= created_at] as soon as the clock does not step back
    between the two readings. *)
Theorem login_creates_session (h t p : string) (w : World) :
  (probe (driver_calls w) h t p).1 = None →
  ∃ s w',
    login h t p w = (Ok (login_message h (id s)), w')
    ∧ sessions w' = <[id s := s]> (sessions w)
    ∧ sessions w' !! id s = Some s
    ∧ id s = uuid4 (uuid_draws w)
    ∧ (host s, token s, http_path s) = (h, t, p)
    ∧ expiry s = one_hour
    ∧ created_at s = clock (clock_reads w)
    ∧ last_used s = clock (S (clock_reads w))
    ∧ (clock (clock_reads w) ≤ clock (S (clock_reads w)) →
       created_at s ≤ last_used s)
    ∧ (∀ j, j ≠ id s → sessions w' !! j = sessions w !! j)
    ∧ (sessions w !! id s = None →
       sessions w ⊆ sessions w' ∧ size (sessions w') = S (size (sessions w)))
    ∧ ((∀ m n : nat, uuid4 m = uuid4 n → m = n) →
       ∀ cs, w = run_calls cs startup → sessions w !! id s = None).
Proof.
  intros P. rewrite login_eq.
  destruct (probe _ _ _ _) as [[c|] n]; simpl in P; [discriminate|].
  exists (new_session w h t p). eexists.
  split; [reflexivity|]. simpl.
  split; [reflexivity|]. split; [apply lookup_insert_eq|].
  do 5 (split; [reflexivity|]). split; [done|].
  split; [intros j Hj; by apply lookup_insert_ne|].
  split.
  - intros F.
    split; [by apply insert_subseteq|by apply map_size_insert_None].
  - intros Inj cs ->. by apply next_uuid_fresh.
Qed.

(** C8, as the code has it.  A successful [get_session] sets [last_used] to
    the clock reading taken by the update and leaves the identifier, the
    host, the token, the http path, the creation time and the expiry as
    they were; the new [last_used] is later than the old one exactly when
    that reading is.  In every state the server reaches it is strictly
    later if the clock is strictly increasing.  Along any sequence of calls
    an entry found under an id at the end has the identifier, host, token
    and http path it had at the start, as long as the generator does not
    draw that id again: so always, from a state the server reaches, if the
    generator never repeats itself. *)
Theorem get_session_touch_frame :
  (∀ session_id w s s' w',
     sessions w !! session_id = Some s →
     get_session session_id w = (Ok (Some s'), w') →
     last_used s' = clock (S (clock_reads w))
     ∧ same_credentials s s'
     ∧ created_at s' = created_at s ∧ expiry s' = expiry s
     ∧ (last_used s < last_used s'
        ↔ last_used s < clock (S (clock_reads w))))
  ∧ ((∀ i j : nat, (i < j)%nat → clock i < clock j) →
     ∀ cs session_id s s' w',
       sessions (run_calls cs startup) !! session_id = Some s →
       get_session session_id (run_calls cs startup) = (Ok (Some s'), w') →
       last_used s < last_used s')
  ∧ (∀ cs w session_id s s',
       (∀ n, (uuid_draws w ≤ n)%nat → uuid4 n ≠ session_id) →
       sessions w !! session_id = Some s →
       sessions (run_calls cs w) !! session_id = Some s' →
       same_credentials s s')
  ∧ ((∀ m n : nat, uuid4 m = uuid4 n → m = n) →
     ∀ cs cs' session_id s s',
       sessions (run_calls cs startup) !! session_id = Some s →
       sessions (run_calls cs' (run_calls cs startup)) !! session_id
         = Some s' →
       same_credentials s s').
Proof.
  assert (Touch : ∀ session_id w s s' w',
            sessions w !! session_id = Some s →
            get_session session_id w = (Ok (Some s'), w') →
            s' = set_last_used (clock (S (clock_reads w))) s).
  { intros sid w s s' w' L G. rewrite get_session_eq, L in G.
    case_bool_decide; [discriminate|]. cbn zeta in G. by injection G as <- _. }
  assert (Keep : ∀ cs w session_id s s',
            (∀ n, (uuid_draws w ≤ n)%nat → uuid4 n ≠ session_id) →
            sessions w !! session_id = Some s →
            sessions (run_calls cs w) !! session_id = Some s' →
            same_credentials s s').
  { intros cs w sid s s' Fresh L L'.
    destruct (run_calls_keeps sid cs w s' Fresh L') as (s0 & L0 & S0).
    rewrite L in L0. by injection L0 as <-. }
  split; [|split; [|split]].
  - intros sid w s s' w' L G. rewrite (Touch _ _ _ _ _ L G). simpl.
    by repeat split.
  - intros Mono cs sid s s' w' L G. rewrite (Touch _ _ _ _ _ L G). simpl.
    destruct (run_calls_stamped cs startup stamped_startup _ _ L)
      as (_ & _ & _ & i & j & B & _ & ->).
    apply Mono. lia.
  - exact Keep.
  - intros Inj cs cs' sid s s' L L'.
    apply (Keep cs' (run_calls cs startup) sid); [|done|done].
    intros n Hn E.
    destruct (run_calls_stamped cs startup stamped_startup _ _ L)
      as (_ & _ & (m & Bm & Um) & _).
    rewrite Um in E. apply Inj in E. lia.
Qed.

(** ** Further properties of the session store *)

Lemma get_session_other (sid sid' : string) (w : World) :
  sid' ≠ sid →
  sessions (get_session sid' w).2 !! sid = sessions w !! sid.
Proof.
  intros Ne. rewrite get_session_eq.
  destruct (sessions w !! sid') as [s|]; [|reflexivity].
  case_bool_decide; cbn zeta; simpl.
  - by apply lookup_delete_ne.
  - by apply lookup_insert_ne.
Qed.

Lemma get_databricks_connection_state (o : option string) (w : World) :
  sessions (get_databricks_connection o w).2
  = sessions (connection_details o w).2.
Proof.
  rewrite get_databricks_connection_eq.
  destruct (connection_details o w) as [[[[h t] p]|e] w']; [|reflexivity].
  unfold connect. by destruct (sql_connect _ _ _ _).
Qed.

Lemma resolver_other (sid : string) (o : option string) (w : World) :
  o ≠ Some sid →
  sessions (if truthy o then (get_session (the o) w).2 else w) !! sid
  = sessions w !! sid.
Proof.
  intros Ne. destruct o as [s|]; [|reflexivity].
  destruct (truthy (Some s)); [|reflexivity].
  change (the (Some s)) with s. apply get_session_other. congruence.
Qed.

(** One call that does not name [sid] leaves the entry of [sid] as it is,
    unless it is a [login] that draws [sid] as its identifier. *)
Lemma run_call_other (sid : string) (c : Call) (w : World) :
  ¬ names sid c →
  uuid4 (uuid_draws w) ≠ sid →
  sessions (run_call c w) !! sid = sessions w !! sid.
Proof.
  intros N F. destruct c as [s|o|o|h t p|s|s|]; simpl in N |- *.
  - by apply get_session_other.
  - rewrite get_databricks_connection_state, connection_details_state.
    by apply resolver_other.
  - rewrite api_credentials_state. by apply resolver_other.
  - rewrite login_eq. destruct (probe _ _ _ _) as [[cause|] n]; simpl.
    + reflexivity.
    + by apply lookup_insert_ne.
  - rewrite logout_eq. destruct (sessions w !! s); simpl; [|reflexivity].
    by apply lookup_delete_ne.
  - rewrite session_status_eq.
    destruct (sessions w !! s) as [x|]; [|reflexivity].
    case_bool_decide; cbn zeta; simpl.
    + by apply lookup_delete_ne.
    + by apply lookup_insert_ne.
  - reflexivity.
Qed.

(** X1: calls that do not name a session id leave its entry exactly as it
    is, whatever the clock says, as long as no [login] draws that id: an
    expired session stays in the store until its own id is looked up or
    logged out. *)
Theorem untouched_by_other_calls (sid : string) (cs : list Call) (w : World) :
  Forall (λ c, ¬ names sid c) cs →
  (∀ n, (uuid_draws w ≤ n)%nat → uuid4 n ≠ sid) →
  sessions (run_calls cs w) !! sid = sessions w !! sid.
Proof.
  revert w. induction cs as [|c cs IH]; intros w N F; [reflexivity|].
  apply Forall_cons in N as [Nc N]. rewrite run_calls_cons.
  pose proof (store_step_uuid_draws _ _ (run_call_step c w)) as Mono.
  rewrite IH; [|exact N|intros n Hn; apply F; lia].
  apply run_call_other; [exact Nc|]. apply F. lia.
Qed.

(** X2: an id that is not in the store does not come back, whatever is
    called, unless a [login] draws it: after any sequence of calls its
    lookup still finds nothing and changes nothing. *)
Theorem absent_stays_absent (sid : string) (cs : list Call) (w : World) :
  sessions w !! sid = None →
  (∀ n, (uuid_draws w ≤ n)%nat → uuid4 n ≠ sid) →
  sessions (run_calls cs w) !! sid = None
  ∧ get_session sid (run_calls cs w) = (Ok None, run_calls cs w)
  ∧ session_status sid (run_calls cs w)
    = (Ok status_not_found, run_calls cs w).
Proof.
  intros L F.
  assert (L' : sessions (run_calls cs w) !! sid = None).
  { destruct (sessions (run_calls cs w) !! sid) as [s'|] eqn:E; [|done].
    destruct (run_calls_keeps sid cs w s' F E) as (s & Ls & _). congruence. }
  split; [exact L'|]. split.
  - by rewrite get_session_eq, L'.
  - by rewrite session_status_eq, L'.
Qed.


(** X4: in every state the server reaches, if the clock never steps back,
    [session_status] either returns the text that the session was not found
    or returns the status text with the id it was asked for, the host and
    the creation time of the stored session, and the minutes
    [int(remaining.total_seconds() / 60)] of a remaining time of at most one
    hour. *)
Theorem status_within_one_hour (cs : list Call) (sid : string) :
  (∀ i j : nat, (i ≤ j)%nat → clock i ≤ clock j) →
  let w := run_calls cs startup in
  let k := clock_reads w in
  let text (i h created minutes : string) :=
    nl +:+ "## Session Status" +:+ nl +:+
    nl +:+ "**Session ID**: " +:+ i +:+
    nl +:+ "**Host**: " +:+ h +:+
    nl +:+ "**Created**: " +:+ created +:+
    nl +:+ "**Expires in**: " +:+ minutes +:+ " minutes" +:+ nl +:+
    nl +:+ "Your session is active." +:+
    nl +:+ "    " in
  let minutes (remaining : Z) :=
    int_of_float (float_div (total_seconds remaining) (float_of_int 60)) in
  (session_status sid w).1
  = Ok "Session not found or expired. Please login again."
  ∨ ∃ s remaining,
      sessions w !! sid = Some s
      ∧ remaining = 3600000000 - (clock (2 + k) - clock (1 + k))
      ∧ remaining ≤ 3600000000
      ∧ (session_status sid w).1
        = Ok (text sid (host s) (strftime (created_at s))
                (pretty (minutes remaining))).
Proof.
  intros Mono w k text minutes. rewrite session_status_eq.
  destruct (sessions w !! sid) as [s|] eqn:L; [|by left].
  case_bool_decide; [by left|]. right. cbn zeta.
  destruct (run_calls_stamped cs startup stamped_startup _ _ L)
    as (I & X & _).
  exists s, (3600000000 - (clock (2 + k) - clock (1 + k))).
  split; [reflexivity|]. split; [reflexivity|]. split.
  - pose proof (Mono (1 + k)%nat (2 + k)%nat ltac:(lia)). lia.
  - simpl. unfold status_message, minutes_of. simpl. rewrite X, I.
    reflexivity.
Qed.

Lemma store_step_size (w w' : World) :
  store_step w w' →
  (size (sessions w) ≤ uuid_draws w)%nat →
  (size (sessions w') ≤ uuid_draws w')%nat.
Proof.
  intros [E C U|sid E C U|sid s j L E C U|h t p E C U] B; rewrite E, U.
  - exact B.
  - rewrite map_size_delete. destruct (sessions w !! sid); simpl; lia.
  - rewrite map_size_insert_Some by eauto. exact B.
  - rewrite map_size_insert.
    destruct (sessions w !! uuid4 (uuid_draws w)); simpl; lia.
Qed.

(** X5: the store never holds more sessions than identifiers were drawn,
    that is than [login]s succeeded. *)
Theorem store_size_bound (cs : list Call) :
  (size (sessions (run_calls cs startup))
   ≤ uuid_draws (run_calls cs startup))%nat.
Proof.
  assert (G : ∀ w, (size (sessions w) ≤ uuid_draws w)%nat →
              (size (sessions (run_calls cs w))
               ≤ uuid_draws (run_calls cs w))%nat).
  { induction cs as [|c cs IH]; intros w B; [exact B|].
    rewrite run_calls_cons. apply IH.
    apply (store_step_size w); [apply run_call_step|exact B]. }
  apply G. simpl. by rewrite map_size_empty.
Qed.

(** X6: in every state the server reaches the inactivity limit of a stored
    session is one hour, the bound included: its lookup returns it when it
    was last used at most 3600000000 microseconds before the lookup, and
    deletes it otherwise. *)
Theorem one_hour_boundary (cs : list Call) (sid : string) (s : Session) :
  sessions (run_calls cs startup) !! sid = Some s →
  let w := run_calls cs startup in
  (clock (clock_reads w) - last_used s ≤ 3600000000 →
   ∃ s' w', get_session sid w = (Ok (Some s'), w')
            ∧ sessions w' !! sid = Some s')
  ∧ (clock (clock_reads w) - last_used s > 3600000000 →
     ∃ w', get_session sid w = (Ok None, w') ∧ sessions w' !! sid = None).
Proof.
  intros L w.
  destruct (run_calls_stamped cs startup stamped_startup _ _ L)
    as (_ & X & _).
  unfold one_hour in X. fold w in L. split; intros Age.
  - rewrite get_session_eq, L.
    rewrite bool_decide_eq_false_2 by lia.
    eexists _, _. split; [reflexivity|]. simpl. apply lookup_insert_eq.
  - rewrite get_session_eq, L.
    rewrite bool_decide_eq_true_2 by lia.
    eexists. split; [reflexivity|]. simpl. apply lookup_delete_eq.
Qed.

(** ** The tools that use a connection *)

(** What [run_sql_query] and [get_schema] do, as one equation each: the
    connection, once opened, sees the query and then the [close]. *)
Lemma run_sql_query_eq (sql : string) (o : option string) (w : World) :
  run_sql_query sql o w =
  match get_databricks_connection o w with
  | (Raise e, w1) => (Ok ("Error executing query: " +:+ str e), w1)
  | (Ok conn, w1) =>
      let text :=
        match cursor_query (driver_calls w1) conn sql with
        | inl cause => "Error executing query: " +:+ cause
        | inr result => result_text result.1 result.2
        end in
      match conn_close (S (driver_calls w1)) conn with
      | None => (Ok text, tick_driver (tick_driver w1))
      | Some cause => (Raise (DriverError cause), tick_driver (tick_driver w1))
      end
  end.
Proof.
  unfold run_sql_query, try_with_conn.
  destruct (get_databricks_connection o w) as [[conn|e] w1]; [|reflexivity].
  unfold try_finally, try_except, bind, fetch_query, close, ret.
  destruct (cursor_query _ _ _) as [cause|result]; simpl;
    destruct (conn_close _ _); reflexivity.
Qed.

Lemma get_schema_eq (o : option string) (w : World) :
  get_schema o w =
  match get_databricks_connection o w with
  | (Raise e, w1) => (Ok ("Error retrieving tables: " +:+ str e), w1)
  | (Ok conn, w1) =>
      let text :=
        match cursor_tables (driver_calls w1) conn with
        | inl cause => "Error retrieving tables: " +:+ cause
        | inr tables => schema_text tables
        end in
      match conn_close (S (driver_calls w1)) conn with
      | None => (Ok text, tick_driver (tick_driver w1))
      | Some cause => (Raise (DriverError cause), tick_driver (tick_driver w1))
      end
  end.
Proof.
  unfold get_schema, try_with_conn.
  destruct (get_databricks_connection o w) as [[conn|e] w1]; [|reflexivity].
  unfold try_finally, try_except, bind, fetch_tables, close, ret.
  destruct (cursor_tables _ _) as [cause|tables]; simpl;
    destruct (conn_close _ _); reflexivity.
Qed.

(** X7: the only exception that leaves [run_sql_query] or [get_schema] is
    one raised by [conn.close()] in the [finally] block: the tool raises
    exactly when the connection was opened and closing it raises, whatever
    the query did, and then it raises that exception.  Every other failure
    is returned as text. *)
Theorem only_close_raises (sql : string) (o : option string) (w : World) (e : exn) :
  ((run_sql_query sql o w).1 = Raise e
   ↔ ∃ conn w1 cause,
       get_databricks_connection o w = (Ok conn, w1)
       ∧ conn_close (S (driver_calls w1)) conn = Some cause
       ∧ e = DriverError cause)
  ∧ ((get_schema o w).1 = Raise e
     ↔ ∃ conn w1 cause,
         get_databricks_connection o w = (Ok conn, w1)
         ∧ conn_close (S (driver_calls w1)) conn = Some cause
         ∧ e = DriverError cause).
Proof.
  rewrite run_sql_query_eq, get_schema_eq.
  destruct (get_databricks_connection o w) as [[conn|e0] w1]; cbn zeta.
  - destruct (conn_close _ _) as [cause|] eqn:C; simpl; split; split.
    + intros [= <-]. by exists conn, w1, cause.
    + intros (c' & w' & cause' & [= <- <-] & C' & ->). congruence.
    + intros [= <-]. by exists conn, w1, cause.
    + intros (c' & w' & cause' & [= <- <-] & C' & ->). congruence.
    + discriminate.
    + intros (c' & w' & cause' & [= <- <-] & C' & _). congruence.
    + discriminate.
    + intros (c' & w' & cause' & [= <- <-] & C' & _). congruence.
  - simpl. split; split; try discriminate;
      intros (c' & w' & cause' & [=] & _).
Qed.

Lemma tool_sessions (sql : string) (o : option string) (w : World) :
  sessions (run_sql_query sql o w).2 = sessions (connection_details o w).2
  ∧ sessions (get_schema o w).2 = sessions (connection_details o w).2.
Proof.
  rewrite run_sql_query_eq, get_schema_eq, <- get_databricks_connection_state.
  destruct (get_databricks_connection o w) as [[conn|e0] w1]; cbn zeta;
    [|by split].
  by destruct (conn_close _ _).
Qed.

(** [run_sql_query] and [get_schema] change the state like the resolution
    of the credentials followed by driver calls, none or two of them; so
    what holds after every sequence of calls holds after these tools. *)
Lemma tools_are_calls (sql : string) (o : option string) (w : World) :
  (∃ n, (n ≤ 2)%nat
        ∧ (run_sql_query sql o w).2
          = run_calls (CallConnection o :: replicate n CallDriver) w)
  ∧ (∃ n, (n ≤ 2)%nat
          ∧ (get_schema o w).2
            = run_calls (CallConnection o :: replicate n CallDriver) w).
Proof.
  rewrite run_sql_query_eq, get_schema_eq.
  destruct (get_databricks_connection o w) as [[conn|e0] w1] eqn:G;
    cbn zeta.
  - split; exists 2%nat; (split; [lia|]); rewrite run_calls_cons;
      simpl run_call; rewrite G; by destruct (conn_close _ _).
  - split; exists 0%nat; (split; [lia|]); rewrite run_calls_cons;
      simpl run_call; by rewrite G.
Qed.

Lemma string_app_cons (c : ascii) (a b : string) :
  String c a +:+ b = String c (a +:+ b).
Proof. reflexivity. Qed.

Lemma string_app_nil_r (a : string) : a +:+ EmptyString = a.
Proof.
  induction a as [|c a IH]; [reflexivity|].
  by rewrite string_app_cons, IH.
Qed.

Lemma string_app_assoc (a b c : string) : (a +:+ b) +:+ c = a +:+ (b +:+ c).
Proof.
  induction a as [|x a IH]; [reflexivity|].
  by rewrite !string_app_cons, IH.
Qed.

Lemma concat_empty_cons (x : string) (l : list string) :
  String.concat EmptyString (x :: l) = x +:+ String.concat EmptyString l.
Proof. destruct l; simpl; [by rewrite string_app_nil_r|reflexivity]. Qed.

Lemma foldl_rows (f : list string → string) (rows : list (list string)) :
  ∀ table,
    foldl (λ table row, table +:+ f row) table rows
    = table +:+ String.concat EmptyString (map f rows).
Proof.
  induction rows as [|row rows IH]; intros table.
  - simpl. by rewrite string_app_nil_r.
  - cbn [foldl map]. rewrite IH, concat_empty_cons. apply string_app_assoc.
Qed.

(** X11: when the query of [run_sql_query] returns and the connection
    closes, the text is the no-results message if the result has no
    description or no row; otherwise it is the header row, a row with one
    [---] per column, and one row per result row, in order. *)
Theorem run_sql_query_table (sql : string) (o : option string) (w w1 : World)
    (conn : Connection) (columns : list string) (rows : list (list string)) :
  get_databricks_connection o w = (Ok conn, w1) →
  cursor_query (driver_calls w1) conn sql = inr (columns, rows) →
  conn_close (S (driver_calls w1)) conn = None →
  (run_sql_query sql o w).1
  = Ok (if bool_decide (columns = [] ∨ rows = []) then no_results
        else table_row columns
             +:+ table_row (replicate (List.length columns) "---")
             +:+ String.concat EmptyString (map table_row rows)).
Proof.
  intros G Q C. rewrite run_sql_query_eq, G. cbn zeta. rewrite Q, C.
  simpl. f_equal. unfold result_text.
  destruct columns as [|c columns].
  { rewrite bool_decide_eq_true_2 by auto. reflexivity. }
  destruct rows as [|row rows].
  { rewrite bool_decide_eq_true_2 by auto. reflexivity. }
  rewrite bool_decide_eq_false_2 by (intros [?|?]; discriminate).
  cbn zeta. rewrite foldl_rows, string_app_assoc. do 3 f_equal.
  generalize (c :: columns). intros l.
  induction l as [|x l IH]; [reflexivity|]. simpl. by rewrite IH.
Qed.

Lemma foldl_snoc_map {A B} (f : A → B) (l : list A) :
  ∀ acc, foldl (λ acc x, (acc ++ [f x])%list) acc l = (acc ++ map f l)%list.
Proof.
  induction l as [|x l IH]; intros acc; simpl.
  - by rewrite app_nil_r.
  - by rewrite IH, <- app_assoc.
Qed.

(** X12: when the listing of [get_schema] returns and the connection
    closes, the text is one line per table, in order, joined by newlines;
    it is the empty string when there is no table. *)
Theorem get_schema_lines (o : option string) (w w1 : World)
    (conn : Connection) (tables : list (string * string * string)) :
  get_databricks_connection o w = (Ok conn, w1) →
  cursor_tables (driver_calls w1) conn = inr tables →
  conn_close (S (driver_calls w1)) conn = None →
  (get_schema o w).1 = Ok (String.concat nl (map table_info_line tables))
  ∧ (tables = [] → (get_schema o w).1 = Ok EmptyString).
Proof.
  intros G Q C. rewrite get_schema_eq, G. cbn zeta. rewrite Q, C. simpl.
  unfold schema_text. rewrite foldl_snoc_map. simpl.
  split; [reflexivity|]. by intros ->.
Qed.

(** ** databricks_api_request and list_jobs *)

Lemma get_session_driver_calls (sid : string) (w : World) :
  driver_calls (get_session sid w).2 = driver_calls w.
Proof.
  rewrite get_session_eq. destruct (sessions w !! sid); [|reflexivity].
  by case_bool_decide.
Qed.

Lemma api_credentials_driver_calls (o : option string) (w : World) :
  driver_calls (api_credentials o w).2 = driver_calls w.
Proof.
  rewrite api_credentials_state. destruct (truthy o); [|reflexivity].
  apply get_session_driver_calls.
Qed.

Lemma upper_GET : upper "GET" = "GET".
Proof. reflexivity. Qed.

(** X13: a method that is neither GET nor POST in upper case makes
    [databricks_api_request] raise [ValueError("Unsupported HTTP method:
    ...")] with the method as it was given, but only after the credentials
    were resolved: if their resolution raises, that exception is the one
    raised, and otherwise the session has been looked up and touched.  No
    request goes out in either case. *)
Theorem unsupported_method_raises (endpoint method : string)
    (data : option Json) (o : option string) (w : World) :
  upper method ≠ "GET" →
  upper method ≠ "POST" →
  databricks_api_request endpoint method data o w
  = match api_credentials o w with
    | (Ok _, w1) =>
        (Raise (ValueError ("Unsupported HTTP method: " +:+ method)), w1)
    | (Raise e, w1) => (Raise e, w1)
    end
  ∧ driver_calls (databricks_api_request endpoint method data o w).2
    = driver_calls w.
Proof.
  intros G P. apply String.eqb_neq in G, P.
  pose proof (api_credentials_driver_calls o w) as D.
  unfold databricks_api_request, bind.
  destruct (api_credentials o w) as [[[h t]|e] w1]; simpl in D |- *.
  - rewrite G, P. by split.
  - by split.
Qed.

(** What [list_jobs] does, as one equation. *)
Lemma list_jobs_eq (o : option string) (w : World) :
  list_jobs o w =
  match api_credentials o w with
  | (Raise e, w1) => (Ok ("Error listing jobs: " +:+ str e), w1)
  | (Ok (h, t), w1) =>
      (Ok match requests_get (driver_calls w1) (request_url h "jobs/list")
                  (request_headers t) with
          | inl cause => "Error listing jobs: " +:+ cause
          | inr response =>
              match read_response response with
              | inl cause => "Error listing jobs: " +:+ cause
              | inr json =>
                  match jobs_listing json with
                  | inr text => text
                  | inl e => "Error listing jobs: " +:+ e
                  end
              end
          end, tick_driver w1)
  end.
Proof.
  unfold list_jobs, try_except, databricks_api_request, bind.
  destruct (api_credentials o w) as [[[h t]|e] w1]; [|reflexivity].
  rewrite upper_GET, String.eqb_refl. unfold http_get.
  destruct (requests_get _ _ _) as [cause|response]; [reflexivity|].
  destruct (read_response response) as [cause|json]; [reflexivity|].
  unfold ret. by destruct (jobs_listing json).
Qed.

(** X14: with the id of a live session whose host and token are not empty,
    [list_jobs] sends one GET request, to
    [https://<host>/api/2.0/jobs/list] with the token of the session as
    bearer token; it returns a text and never raises: the error text with
    the cause if the request or the reading of the response raises, and
    what it makes of the JSON otherwise.  The session is touched. *)
Theorem list_jobs_request (sid : string) (s : Session) (w : World) :
  sid ≠ EmptyString →
  sessions w !! sid = Some s →
  clock (clock_reads w) - last_used s ≤ expiry s →
  host s ≠ EmptyString →
  token s ≠ EmptyString →
  let outcome :=
    requests_get (driver_calls w)
      ("https://" +:+ host s +:+ "/api/2.0/jobs/list")
      [("Authorization", "Bearer " +:+ token s);
       ("Content-Type", "application/json")] in
  ∃ text w',
    list_jobs (Some sid) w = (Ok text, w')
    ∧ driver_calls w' = S (driver_calls w)
    ∧ sessions w' !! sid = Some (set_last_used (clock (S (clock_reads w))) s)
    ∧ (∀ cause, outcome = inl cause →
         text = "Error listing jobs: " +:+ cause)
    ∧ (∀ response cause, outcome = inr response →
         read_response response = inl cause →
         text = "Error listing jobs: " +:+ cause)
    ∧ (∀ response json, outcome = inr response →
         read_response response = inr json →
         text = match jobs_listing json with
                | inr text => text
                | inl e => "Error listing jobs: " +:+ e
                end).
Proof.
  intros N L Live Nh Nt outcome.
  rewrite list_jobs_eq, (api_credentials_session sid w N), get_session_eq, L.
  rewrite bool_decide_eq_false_2 by lia. cbn zeta.
  apply truthy_Some in Nh, Nt. unfold all. simpl forallb.
  simpl in Nh, Nt. rewrite Nh, Nt. simpl andb. cbv iota.
  simpl driver_calls. simpl host. simpl token.
  change (requests_get _ _ _) with outcome.
  eexists _, _. split; [reflexivity|]. split; [reflexivity|].
  split; [simpl; apply lookup_insert_eq|].
  split; [intros cause E; by rewrite E|].
  split; [intros response cause E R; by rewrite E, R|].
  intros response json E R. by rewrite E, R.
Qed.

Lemma jobs_loop_spec (jobs : list Json) :
  ∀ table,
    match jobs_loop table jobs with
    | inr text =>
        ∃ rows, Forall2 (λ job row, job_row job = inr row) jobs rows
                ∧ text = table +:+ String.concat EmptyString rows
    | inl e =>
        ∃ before job after,
          jobs = (before ++ job :: after)%list
          ∧ Forall (λ j, ∃ row, job_row j = inr row) before
          ∧ job_row job = inl e
    end.
Proof.
  induction jobs as [|job jobs IH]; intros table.
  - simpl. exists []. split; [constructor|]. by rewrite string_app_nil_r.
  - simpl. destruct (job_row job) as [e|row] eqn:R.
    + exists [], job, jobs. by repeat split.
    + specialize (IH (table +:+ row)).
      destruct (jobs_loop (table +:+ row) jobs) as [e|text].
      * destruct IH as (before & j & after & -> & B & F).
        exists (job :: before), j, after. split; [reflexivity|].
        split; [|exact F]. constructor; eauto.
      * destruct IH as (rows & F & ->).
        exists (row :: rows). split; [by constructor|].
        by rewrite concat_empty_cons, string_app_assoc.
Qed.

(** X15: for a response whose [jobs] is a list, [list_jobs] makes either the
    whole table or no table at all: the text is the header followed by one
    row per job, in order, if every job gives a row, and the exception of
    the first job that does not give one is the outcome otherwise. *)
Theorem jobs_table_all_or_nothing
    (d : list (string * Json)) (jobs : list Json) :
  assoc "jobs" d = Some (JList jobs) →
  match jobs_listing (JDict d) with
  | inr text =>
      (jobs = [] ∧ text = "No jobs found.")
      ∨ ∃ rows, Forall2 (λ job row, job_row job = inr row) jobs rows
                ∧ text = jobs_header +:+ String.concat EmptyString rows
  | inl e =>
      ∃ before job after,
        jobs = (before ++ job :: after)%list
        ∧ Forall (λ j, ∃ row, job_row j = inr row) before
        ∧ job_row job = inl e
  end.
Proof.
  intros A. unfold jobs_listing, py_get. rewrite A. simpl.
  destruct jobs as [|job jobs]; [by left|]. simpl negb. cbv iota.
  pose proof (jobs_loop_spec (job :: jobs) jobs_header) as S.
  destruct (jobs_loop jobs_header (job :: jobs)) as [e|text]; [exact S|].
  by right.
Qed.

(** X16: the row of one job.  A job that is not a dict, or whose [settings]
    is there but is not a dict ([null], say), raises the [AttributeError] of
    the [get] that fails.  Every other job gives the row of its [job_id],
    of the [name] in its [settings] and of its [created_by], each formatted
    as an f-string does and each replaced by [N/A] when the key is missing;
    a job without [settings] has [N/A] for a name. *)
Theorem job_row_cases :
  let shown (o : option Json) :=
    match o with
    | Some v => format_value v
    | None => "N/A"
    end in
  let row (job_id job_name created_by : string) :=
    "| " +:+ job_id +:+ " | " +:+ job_name +:+ " | " +:+ created_by
    +:+ " |" +:+ nl in
  (∀ job, (∀ d, job ≠ JDict d) →
     job_row job
     = inl ("'" +:+ type_name job +:+ "' object has no attribute 'get'"))
  ∧ (∀ d v, assoc "settings" d = Some v → (∀ d', v ≠ JDict d') →
       job_row (JDict d)
       = inl ("'" +:+ type_name v +:+ "' object has no attribute 'get'"))
  ∧ (∀ d, assoc "settings" d = None →
       job_row (JDict d)
       = inr (row (shown (assoc "job_id" d)) "N/A"
                (shown (assoc "created_by" d))))
  ∧ (∀ d settings, assoc "settings" d = Some (JDict settings) →
       job_row (JDict d)
       = inr (row (shown (assoc "job_id" d)) (shown (assoc "name" settings))
                (shown (assoc "created_by" d))))
  ∧ (∀ s, format_value (JStr s) = s)
  ∧ (∀ n, format_value (JAtom (AInt n)) = pretty n)
  ∧ format_value (JAtom ANone) = "None"
  ∧ format_value (JAtom (ABool true)) = "True"
  ∧ format_value (JAtom (ABool false)) = "False".
Proof.
  intros shown row.
  split; [|split; [|split; [|split]]].
  - intros job N. destruct job as [a|s|l|d]; try reflexivity.
    by destruct (N d).
  - intros d v A N. unfold job_row. simpl py_get at 1. cbv iota.
    simpl py_get at 1. rewrite A. simpl from_option.
    destruct v as [a|s|l|d']; try reflexivity. by destruct (N d').
  - intros d A. unfold job_row, py_get. rewrite A. simpl.
    by destruct (assoc "job_id" d), (assoc "created_by" d).
  - intros d settings A. unfold job_row, py_get. rewrite A. simpl.
    by destruct (assoc "job_id" d), (assoc "name" settings),
      (assoc "created_by" d).
  - by repeat split.
Qed.

(** X17: what [list_jobs] makes of a response without a list of jobs.  A
    response that is not a dict raises the [AttributeError] of [get].  A
    dict in which [jobs] is missing or false ([null], an empty list, zero,
    an empty string) gives the text [No jobs found.].  A number or [true]
    under [jobs] raises the [TypeError] of the loop, and a text or a dict
    that is not empty is looped over and raises the [AttributeError] of
    [get] on a string. *)
Theorem jobs_listing_without_list :
  (∀ v, (∀ d, v ≠ JDict d) → jobs_listing v = inl (no_attribute_get v))
  ∧ (∀ d, json_truthy (default (JAtom ANone) (assoc "jobs" d)) = false →
       jobs_listing (JDict d) = inr "No jobs found.")
  ∧ (∀ d a, assoc "jobs" d = Some (JAtom a) →
       json_truthy (JAtom a) = true →
       jobs_listing (JDict d)
       = inl ("'" +:+ type_name (JAtom a) +:+ "' object is not iterable"))
  ∧ (∀ d s, assoc "jobs" d = Some (JStr s) → s ≠ EmptyString →
       jobs_listing (JDict d) = inl "'str' object has no attribute 'get'")
  ∧ (∀ d d', assoc "jobs" d = Some (JDict d') → d' ≠ [] →
       jobs_listing (JDict d) = inl "'str' object has no attribute 'get'").
Proof.
  split; [|split; [|split; [|split]]].
  - intros v N. destruct v as [a|s|l|d]; try reflexivity. by destruct (N d).
  - intros d F. unfold jobs_listing, py_get.
    destruct (assoc "jobs" d) as [v|]; simpl in F |- *; [|reflexivity].
    by rewrite F.
  - intros d a A T. unfold jobs_listing, py_get. rewrite A. simpl from_option.
    rewrite T. reflexivity.
  - intros d s A N. unfold jobs_listing, py_get. rewrite A. simpl from_option.
    destruct s as [|c s]; [done|]. reflexivity.
  - intros d d' A N. unfold jobs_listing, py_get. rewrite A. simpl from_option.
    destruct d' as [|[k v] d']; [done|]. reflexivity.
Qed.

(** ** The tools and the session store *)

Lemma list_jobs_sessions (o : option string) (w : World) :
  sessions (list_jobs o w).2 = sessions (api_credentials o w).2.
Proof.
  rewrite list_jobs_eq.
  by destruct (api_credentials o w) as [[[h t]|e] w1].
Qed.

(** X8: with a session id that is absent or expired, [run_sql_query],
    [get_schema] and [list_jobs] return their error text with the message of
    the invalid session, nothing is asked of the driver or of the HTTP
    client, and no entry is left under that id. *)
Theorem tools_reject_invalid_session (sql sid : string) (w : World) :
  sid ≠ EmptyString →
  (get_session sid w).1 = Ok None →
  ∃ w',
    run_sql_query sql (Some sid) w
    = (Ok "Error executing query: Invalid or expired session ID", w')
    ∧ get_schema (Some sid) w
      = (Ok "Error retrieving tables: Invalid or expired session ID", w')
    ∧ list_jobs (Some sid) w
      = (Ok "Error listing jobs: Invalid or expired session ID", w')
    ∧ driver_calls w' = driver_calls w
    ∧ sessions w' !! sid = None.
Proof.
  intros N G.
  pose proof (connection_details_session sid w N) as C.
  pose proof (api_credentials_session sid w N) as A.
  destruct (get_session sid w) as [[[s|]|e] w'] eqn:E; try discriminate.
  exists w'.
  rewrite run_sql_query_eq, get_schema_eq, get_databricks_connection_eq, C.
  rewrite list_jobs_eq, A.
  split; [reflexivity|]. split; [reflexivity|]. split; [reflexivity|].
  rewrite get_session_eq in E.
  destruct (sessions w !! sid) as [s|] eqn:L.
  - case_bool_decide; [|discriminate]. injection E as <-.
    split; [reflexivity|]. simpl. apply lookup_delete_eq.
  - injection E as <-. by split.
Qed.

(** X9: a live session named by [run_sql_query], [get_schema] or
    [list_jobs] is given a new [last_used], the clock reading taken by the
    lookup, before anything is asked of the driver or the HTTP client: it is
    in the store with that [last_used] afterwards whatever they did, also
    when the tool raises. *)
Theorem tools_refresh_session (sql sid : string) (s : Session) (w : World) :
  sid ≠ EmptyString →
  sessions w !! sid = Some s →
  clock (clock_reads w) - last_used s ≤ expiry s →
  let s' := set_last_used (clock (S (clock_reads w))) s in
  sessions (run_sql_query sql (Some sid) w).2 !! sid = Some s'
  ∧ sessions (get_schema (Some sid) w).2 !! sid = Some s'
  ∧ sessions (list_jobs (Some sid) w).2 !! sid = Some s'.
Proof.
  intros N L Live s'.
  destruct (tool_sessions sql (Some sid) w) as [-> ->].
  rewrite list_jobs_sessions, connection_details_state, api_credentials_state.
  apply truthy_Some in N. rewrite N. change (the (Some sid)) with sid.
  rewrite get_session_eq, L. rewrite bool_decide_eq_false_2 by lia.
  cbn zeta. simpl. by rewrite lookup_insert_eq.
Qed.

(** X10: a tool called with one session id, or with none, leaves the entry
    of every other id exactly as it was. *)
Theorem tools_leave_other_sessions (sql sid : string) (o : option string)
    (w : World) :
  o ≠ Some sid →
  sessions (run_sql_query sql o w).2 !! sid = sessions w !! sid
  ∧ sessions (get_schema o w).2 !! sid = sessions w !! sid
  ∧ sessions (list_jobs o w).2 !! sid = sessions w !! sid.
Proof.
  intros Ne.
  destruct (tool_sessions sql o w) as [-> ->].
  rewrite list_jobs_sessions, connection_details_state, api_credentials_state.
  by rewrite resolver_other.
Qed.

(** X18: in every state the server reaches, a stored session sits under its
    own identifier, which [uuid4] has drawn, expires after one hour, and, if
    the clock never steps back, was last used no earlier than it was
    created. *)
Theorem stored_session_invariants (cs : list Call) (sid : string) (s : Session) :
  sessions (run_calls cs startup) !! sid = Some s →
  id s = sid
  ∧ expiry s = 3600000000
  ∧ (∃ n, (n < uuid_draws (run_calls cs startup))%nat ∧ sid = uuid4 n)
  ∧ ((∀ i j : nat, (i ≤ j)%nat → clock i ≤ clock j) →
     created_at s ≤ last_used s).
Proof.
  intros L.
  destruct (run_calls_stamped cs startup stamped_startup _ _ L)
    as (I & X & U & i & j & B & -> & ->).
  split; [exact I|]. split; [exact X|]. split; [exact U|].
  intros Mono. apply Mono. lia.
Qed.

End Server.

(** ** The theorems at work *)

(** A server with a ticking clock, a generator that counts, and a driver
    that accepts every connection. *)
Local Abbreviation login1 :=
  (login ticking_clock numbered_uuid unit accepting_connect accepting_execute
     accepting_close).
Local Abbreviation probe1 :=
  (probe unit accepting_connect accepting_execute accepting_close).
Local Abbreviation run1 :=
  (run_calls ticking_clock numbered_uuid full_environ plain_strftime unit
     accepting_connect accepting_execute accepting_close).
(** The state after one [login("h", "t", "p")] on that server. *)
Local Abbreviation logged_in := ((login1 "h" "t" "p" startup).2).

Lemma get_session_cases_witness :
  ∃ s' w',
    get_session ticking_clock "id0" logged_in = (Ok (Some s'), w')
    ∧ last_used s' = 3
    ∧ get_session ticking_clock "nobody" logged_in = (Ok None, logged_in).
Proof.
  pose proof (get_session_cases ticking_clock "id0" logged_in) as Live.
  pose proof (get_session_cases ticking_clock "nobody" logged_in) as Absent.
  vm_compute in Live. destruct Live as (G & U & _).
  eexists _, _. split; [exact G|]. split; [reflexivity|exact Absent].
Defined.

Lemma resolve_session_credentials_witness :
  "id0" ≠ EmptyString
  ∧ (connection_details ticking_clock full_environ (Some "id0") logged_in).1
    = Ok ("h", "t", "p")
  ∧ (api_credentials ticking_clock full_environ (Some "id0") logged_in).1
    = Ok ("h", "t")
  ∧ (connection_details ticking_clock full_environ (Some "nobody") logged_in).1
    = Raise (ValueError "Invalid or expired session ID").
Proof.
  split; [discriminate|].
  destruct (resolve_session_credentials ticking_clock full_environ unit
              accepting_connect "id0" logged_in ltac:(discriminate))
    as (r & w' & G & Hr).
  vm_compute in G. injection G as <- <-. destruct Hr as (_ & C & _ & A).
  rewrite C, A.
  destruct (resolve_session_credentials ticking_clock full_environ unit
              accepting_connect "nobody" logged_in ltac:(discriminate))
    as (r & w' & G & Hr).
  vm_compute in G. injection G as <- <-. destruct Hr as (_ & C' & _).
  rewrite C'. repeat split.
Defined.

Lemma resolve_environment_credentials_witness :
  truthy None = false
  ∧ connection_details ticking_clock full_environ None startup
    = (Ok ("h", "t", "p"), startup)
  ∧ connection_details ticking_clock rest_environ None startup
    = (Raise (ValueError "Missing required Databricks connection details"),
       startup).
Proof.
  split; [reflexivity|]. split.
  - apply (resolve_environment_credentials ticking_clock full_environ unit
             accepting_connect None startup). reflexivity.
  - apply (resolve_environment_credentials ticking_clock rest_environ unit
             accepting_connect None startup). reflexivity.
Defined.

Lemma login_probe_failure_witness :
  (probe unit refusing_connect accepting_execute accepting_close
     (driver_calls startup) "h" "t" "p").1 = Some "bad token"
  ∧ ∃ w',
      login ticking_clock numbered_uuid unit refusing_connect
        accepting_execute accepting_close "h" "t" "p" startup
      = (Ok "Authentication failed: bad token", w')
      ∧ sessions w' = ∅.
Proof.
  split; [reflexivity|].
  destruct (login_probe_failure ticking_clock numbered_uuid unit
              refusing_connect accepting_execute accepting_close
              "h" "t" "p" "bad token" startup eq_refl)
    as (w' & L & S & _).
  exists w'. split; [exact L|exact S].
Defined.

Lemma login_creates_session_witness :
  (probe1 (driver_calls startup) "h" "t" "p").1 = None
  ∧ ∃ s,
      sessions logged_in !! "id0" = Some s
      ∧ (id s, host s, token s, http_path s) = ("id0", "h", "t", "p")
      ∧ created_at s = 0 ∧ last_used s = 1 ∧ expiry s = 3600000000.
Proof.
  split; [reflexivity|].
  destruct (login_creates_session ticking_clock numbered_uuid full_environ
              plain_strftime unit accepting_connect accepting_execute
              accepting_close "h" "t" "p" startup eq_refl)
    as (s & w' & L & _ & S & I & C & X & Cr & Lu & _).
  exists s. rewrite L. simpl snd.
  change "id0" with (numbered_uuid (uuid_draws startup)). rewrite <- I.
  split; [exact S|]. rewrite I, X, Cr, Lu.
  injection C as -> -> ->. repeat split.
Defined.

Lemma session_status_cases_witness :
  (probe1 (driver_calls startup) "h" "t" "p").1 = None
  ∧ ticking_clock (2 + clock_reads startup)
    - ticking_clock (1 + clock_reads startup) ≤ one_hour
  ∧ (session_status ticking_clock plain_strftime "id0" logged_in).1
    = Ok (nl +:+ "## Session Status" +:+ nl +:+
          nl +:+ "**Session ID**: id0" +:+
          nl +:+ "**Host**: h" +:+
          nl +:+ "**Created**: 0" +:+
          nl +:+ "**Expires in**: 59 minutes" +:+ nl +:+
          nl +:+ "Your session is active." +:+
          nl +:+ "    ")
  ∧ (session_status coarse_clock plain_strftime "id0"
       (login coarse_clock numbered_uuid unit accepting_connect
          accepting_execute accepting_close "h" "t" "p" startup).2).1
    = Ok (nl +:+ "## Session Status" +:+ nl +:+
          nl +:+ "**Session ID**: id0" +:+
          nl +:+ "**Host**: h" +:+
          nl +:+ "**Created**: 0" +:+
          nl +:+ "**Expires in**: 60 minutes" +:+ nl +:+
          nl +:+ "Your session is active." +:+
          nl +:+ "    ")
  ∧ (session_status leaping_clock plain_strftime "id0"
       (login leaping_clock numbered_uuid unit accepting_connect
          accepting_execute accepting_close "h" "t" "p" startup).2).1
    = Ok (nl +:+ "## Session Status" +:+ nl +:+
          nl +:+ "**Session ID**: id0" +:+
          nl +:+ "**Host**: h" +:+
          nl +:+ "**Created**: 0" +:+
          nl +:+ "**Expires in**: -286335287 minutes" +:+ nl +:+
          nl +:+ "Your session is active." +:+
          nl +:+ "    ")
  ∧ session_status ticking_clock plain_strftime "nobody" logged_in
    = (Ok "Session not found or expired. Please login again.", logged_in).
Proof.
  split; [reflexivity|]. split; [vm_compute; discriminate|].
  destruct (session_status_cases ticking_clock numbered_uuid plain_strftime
              unit accepting_connect accepting_execute accepting_close
              "id0" startup) as [_ Ticking].
  destruct (Ticking "h" "t" "p" eq_refl ltac:(vm_compute; discriminate))
    as (w1 & _ & S1).
  destruct (session_status_cases coarse_clock numbered_uuid plain_strftime
              unit accepting_connect accepting_execute accepting_close
              "id0" startup) as [_ Coarse].
  destruct (Coarse "h" "t" "p" eq_refl ltac:(vm_compute; discriminate))
    as (w2 & _ & S2).
  destruct (session_status_cases leaping_clock numbered_uuid plain_strftime
              unit accepting_connect accepting_execute accepting_close
              "id0" startup) as [_ Leaping].
  destruct (Leaping "h" "t" "p" eq_refl ltac:(vm_compute; discriminate))
    as (w3 & _ & S3).
  destruct (session_status_cases ticking_clock numbered_uuid plain_strftime
              unit accepting_connect accepting_execute accepting_close
              "nobody" logged_in) as [Absent _].
  change (numbered_uuid (uuid_draws startup)) with "id0" in S1, S2, S3.
  rewrite S1, S2, S3.
  split; [vm_compute; reflexivity|]. split; [vm_compute; reflexivity|].
  split; [vm_compute; reflexivity|]. exact Absent.
Defined.


Lemma get_session_touch_frame_witness :
  (∀ i j : nat, (i < j)%nat → ticking_clock i < ticking_clock j)
  ∧ ∃ s s' w',
      sessions (run1 [CallLogin "h" "t" "p"] startup) !! "id0" = Some s
      ∧ get_session ticking_clock "id0" (run1 [CallLogin "h" "t" "p"] startup)
        = (Ok (Some s'), w')
      ∧ last_used s < last_used s'
      ∧ same_credentials s s'.
Proof.
  assert (Mono : ∀ i j : nat, (i < j)%nat → ticking_clock i < ticking_clock j)
    by (unfold ticking_clock; lia).
  split; [exact Mono|].
  destruct (get_session_touch_frame ticking_clock numbered_uuid full_environ
              plain_strftime unit accepting_connect accepting_execute
              accepting_close) as (Touch & Strict & _).
  eexists _, _, _. split; [vm_compute; reflexivity|].
  split; [vm_compute; reflexivity|]. split.
  - eapply (Strict Mono [CallLogin "h" "t" "p"] "id0");
      vm_compute; reflexivity.
  - eapply (Touch "id0" (run1 [CallLogin "h" "t" "p"] startup));
      vm_compute; reflexivity.
Defined.

Lemma session_status_keeps_alive_witness :
  sessions logged_in !! "id0" = Some (mkSession "id0" "h" "t" "p" 0 1 one_hour)
  ∧ ticking_clock (clock_reads logged_in) - 1 ≤ one_hour
  ∧ (session_status ticking_clock plain_strftime "id0" logged_in).1
    = Ok (nl +:+ "## Session Status" +:+ nl +:+
          nl +:+ "**Session ID**: id0" +:+
          nl +:+ "**Host**: h" +:+
          nl +:+ "**Created**: 0" +:+
          nl +:+ "**Expires in**: 59 minutes" +:+ nl +:+
          nl +:+ "Your session is active." +:+
          nl +:+ "    ")
  ∧ (session_status coarse_clock plain_strftime "id0" logged_in).1
    = Ok (nl +:+ "## Session Status" +:+ nl +:+
          nl +:+ "**Session ID**: id0" +:+
          nl +:+ "**Host**: h" +:+
          nl +:+ "**Created**: 0" +:+
          nl +:+ "**Expires in**: 60 minutes" +:+ nl +:+
          nl +:+ "Your session is active." +:+
          nl +:+ "    ")
  ∧ ∃ s',
      sessions (run1 (replicate 5 (CallStatus "id0")) logged_in) !! "id0"
      = Some s'
      ∧ last_used s' = 15.
Proof.
  split; [vm_compute; reflexivity|]. split; [vm_compute; discriminate|].
  destruct (session_status_keeps_alive ticking_clock numbered_uuid
              full_environ plain_strftime unit accepting_connect
              accepting_execute accepting_close "id0"
              (mkSession "id0" "h" "t" "p" 0 1 one_hour) logged_in
              ltac:(vm_compute; reflexivity)
              ltac:(vm_compute; discriminate))
    as ((s1 & w1 & S1 & _) & Poll).
  destruct (session_status_keeps_alive coarse_clock numbered_uuid
              full_environ plain_strftime unit accepting_connect
              accepting_execute accepting_close "id0"
              (mkSession "id0" "h" "t" "p" 0 1 one_hour) logged_in
              ltac:(vm_compute; reflexivity)
              ltac:(vm_compute; discriminate))
    as ((s2 & w2 & S2 & _) & _).
  rewrite S1, S2.
  split; [vm_compute; reflexivity|]. split; [vm_compute; reflexivity|].
  destruct (Poll 5%nat) as (s' & L & _ & U).
  - intros j Hj. unfold ticking_clock, one_hour. simpl expiry. lia.
  - exists s'. split; [exact L|]. rewrite U by discriminate. reflexivity.
Defined.

(** ** Where the code departs from the specification *)

(** C2: an empty string given as session id is not looked up: the resolver
    falls back to the environment and succeeds, although no session has that
    id.  And a session whose http path is empty, which [login] creates if
    the driver accepts it, does not give its credentials to
    [get_databricks_connection]. *)
Lemma resolve_empty_session_id :
  sessions startup !! EmptyString = None
  ∧ connection_details ticking_clock full_environ (Some EmptyString) startup
    = (Ok ("h", "t", "p"), startup)
  ∧ (connection_details ticking_clock full_environ (Some EmptyString)
       startup).1 ≠ Raise invalid_session
  ∧ ∃ s w',
      get_session ticking_clock "id0" (login1 "h" "t" EmptyString startup).2
      = (Ok (Some s), w')
      ∧ (connection_details ticking_clock full_environ (Some "id0")
           (login1 "h" "t" EmptyString startup).2).1
        = Raise missing_connection_details
      ∧ Raise missing_connection_details
        ≠ Ok (host s, token s, http_path s).
Proof.
  split; [reflexivity|]. split; [vm_compute; reflexivity|].
  split; [vm_compute; discriminate|].
  eexists _, _. split; [vm_compute; reflexivity|].
  split; [vm_compute; reflexivity|discriminate].
Qed.

(** C3: with the host and the token in the environment and no http path,
    [databricks_api_request] resolves its credentials and does not fail.
    And an environment in which the host is set to the empty string has all
    three values, yet [get_databricks_connection] raises. *)
Lemma api_request_ignores_http_path :
  getenv rest_environ "DATABRICKS_HTTP_PATH" = None
  ∧ api_credentials ticking_clock rest_environ None startup
    = (Ok ("h", "t"), startup)
  ∧ (api_credentials ticking_clock rest_environ None startup).1
    ≠ Raise missing_api_credentials
  ∧ is_Some (getenv blank_host_environ "DATABRICKS_HOST")
  ∧ is_Some (getenv blank_host_environ "DATABRICKS_TOKEN")
  ∧ is_Some (getenv blank_host_environ "DATABRICKS_HTTP_PATH")
  ∧ connection_details ticking_clock blank_host_environ None startup
    = (Raise missing_connection_details, startup).
Proof.
  split; [reflexivity|]. split; [vm_compute; reflexivity|].
  split; [vm_compute; discriminate|].
  split; [vm_compute; eauto|]. split; [vm_compute; eauto|].
  split; [vm_compute; eauto|]. vm_compute; reflexivity.
Qed.

(** C5: with a clock that advances between two readings, the session that
    [login] stores has a [last_used] later than its [created_at]. *)
Lemma created_at_before_last_used :
  ∃ s, sessions logged_in !! "id0" = Some s
       ∧ created_at s = 0 ∧ last_used s = 1
       ∧ created_at s ≠ last_used s.
Proof.
  eexists. split; [vm_compute; reflexivity|].
  split; [reflexivity|]. split; [reflexivity|]. discriminate.
Qed.

(** C8: with a clock that returns the same instant at two readings, two
    successive lookups of a live session record the same [last_used]. *)
Lemma last_used_not_advanced :
  ∃ s1 w1 s2 w2,
    get_session coarse_clock "id0"
      (login coarse_clock numbered_uuid unit accepting_connect
         accepting_execute accepting_close "h" "t" "p" startup).2
    = (Ok (Some s1), w1)
    ∧ get_session coarse_clock "id0" w1 = (Ok (Some s2), w2)
    ∧ last_used s2 = last_used s1
    ∧ ¬ (last_used s1 < last_used s2).
Proof.
  eexists _, _, _, _. split; [vm_compute; reflexivity|].
  split; [vm_compute; reflexivity|]. split; [reflexivity|]. simpl. lia.
Qed.

(** The scenario of the specification, on the sample server: [login], then
    [session_status] of the new id, [logout], and [session_status] again. *)
Lemma login_status_logout_status :
  let '(r1, w1) := login1 "h" "t" "p" startup in
  let '(r2, w2) := session_status ticking_clock plain_strftime "id0" w1 in
  let '(r3, w3) := logout "id0" w2 in
  let '(r4, w4) := session_status ticking_clock plain_strftime "id0" w3 in
  r1 = Ok (login_message "h" "id0")
  ∧ r2 = Ok (status_message plain_strftime
               (mkSession "id0" "h" "t" "p" 0 3 one_hour) 59)
  ∧ r3 = Ok logged_out
  ∧ r4 = Ok status_not_found
  ∧ sessions w4 = ∅.
Proof. vm_compute. repeat split. Qed.

(** The minutes of line 177 at some durations: whole minutes are cut off
    towards zero, and far from zero the floating-point quotient is not the
    exact one. *)
Lemma minutes_in_floating_point :
  minutes_of 3600000000 = 60
  ∧ minutes_of 3599999999 = 59
  ∧ minutes_of 60000000 = 1
  ∧ minutes_of 59999999 = 0
  ∧ minutes_of 0 = 0
  ∧ minutes_of (-1) = 0
  ∧ minutes_of (-60000000) = -1
  ∧ minutes_of (-17180117219999999) = -286335287
  ∧ Z.quot (-17180117219999999) 60000000 = -286335286.
Proof. vm_compute. repeat split. Qed.

(** ** The further properties at work *)

Local Abbreviation conn1 :=
  (get_databricks_connection ticking_clock full_environ unit
     accepting_connect).
Local Abbreviation query1 :=
  (run_sql_query ticking_clock full_environ unit accepting_connect
     accepting_close two_rows).
Local Abbreviation schema1 :=
  (get_schema ticking_clock full_environ unit accepting_connect
     accepting_close two_tables).
Local Abbreviation jobs1 :=
  (list_jobs ticking_clock full_environ upper_as_is Json jobs_get no_post
     status_ok json_body short_repr).

Lemma numbered_uuid_inj (m n : nat) :
  numbered_uuid m = numbered_uuid n → m = n.
Proof.
  unfold numbered_uuid. intros E. injection E as E. by apply (inj pretty).
Qed.

Lemma numbered_uuid_fresh (k : nat) (n : nat) :
  (S k ≤ n)%nat → numbered_uuid n ≠ numbered_uuid 0.
Proof. intros B E. apply numbered_uuid_inj in E. lia. Qed.

Lemma untouched_by_other_calls_witness :
  Forall (λ c, ¬ names "id0" c)
    [CallStatus "nobody"; CallLogin "h2" "t2" "p2"; CallLogout "id1";
     CallDriver]
  ∧ (∀ n, (uuid_draws logged_in ≤ n)%nat → numbered_uuid n ≠ "id0")
  ∧ sessions
      (run1 [CallStatus "nobody"; CallLogin "h2" "t2" "p2"; CallLogout "id1";
             CallDriver] logged_in) !! "id0"
    = Some (mkSession "id0" "h" "t" "p" 0 1 one_hour).
Proof.
  assert (N : Forall (λ c, ¬ names "id0" c)
                [CallStatus "nobody"; CallLogin "h2" "t2" "p2";
                 CallLogout "id1"; CallDriver]).
  { repeat constructor; simpl; try discriminate; tauto. }
  assert (F : ∀ n, (uuid_draws logged_in ≤ n)%nat → numbered_uuid n ≠ "id0").
  { intros n Hn. by apply (numbered_uuid_fresh 0). }
  split; [exact N|]. split; [exact F|].
  rewrite (untouched_by_other_calls ticking_clock numbered_uuid full_environ
             plain_strftime unit accepting_connect accepting_execute
             accepting_close "id0" _ logged_in N F).
  vm_compute. reflexivity.
Defined.

Lemma absent_stays_absent_witness :
  sessions (logout "id0" logged_in).2 !! "id0" = None
  ∧ (∀ n, (uuid_draws (logout "id0" logged_in).2 ≤ n)%nat →
       numbered_uuid n ≠ "id0")
  ∧ get_session ticking_clock "id0"
      (run1 [CallLogin "h2" "t2" "p2"; CallStatus "id0";
             CallConnection (Some "id0")] (logout "id0" logged_in).2)
    = (Ok None,
       run1 [CallLogin "h2" "t2" "p2"; CallStatus "id0";
             CallConnection (Some "id0")] (logout "id0" logged_in).2).
Proof.
  assert (F : ∀ n, (uuid_draws (logout "id0" logged_in).2 ≤ n)%nat →
                numbered_uuid n ≠ "id0").
  { intros n Hn. by apply (numbered_uuid_fresh 0). }
  split; [vm_compute; reflexivity|]. split; [exact F|].
  apply (absent_stays_absent ticking_clock numbered_uuid full_environ
           plain_strftime unit accepting_connect accepting_execute
           accepting_close "id0"
           [CallLogin "h2" "t2" "p2"; CallStatus "id0";
            CallConnection (Some "id0")]
           (logout "id0" logged_in).2); [vm_compute; reflexivity|exact F].
Defined.


Lemma status_within_one_hour_witness :
  (∀ i j : nat, (i ≤ j)%nat → ticking_clock i ≤ ticking_clock j)
  ∧ (session_status ticking_clock plain_strftime "id0"
       (run1 [CallLogin "h" "t" "p"] startup)).1
    = Ok (nl +:+ "## Session Status" +:+ nl +:+
          nl +:+ "**Session ID**: id0" +:+
          nl +:+ "**Host**: h" +:+
          nl +:+ "**Created**: 0" +:+
          nl +:+ "**Expires in**: 59 minutes" +:+ nl +:+
          nl +:+ "Your session is active." +:+
          nl +:+ "    ").
Proof.
  assert (Mono : ∀ i j : nat, (i ≤ j)%nat → ticking_clock i ≤ ticking_clock j)
    by (unfold ticking_clock; lia).
  split; [exact Mono|].
  destruct (status_within_one_hour ticking_clock numbered_uuid
              full_environ plain_strftime unit accepting_connect
              accepting_execute accepting_close [CallLogin "h" "t" "p"]
              "id0" Mono) as [NotFound|(s & remaining & L & R & _ & T)].
  - vm_compute in NotFound. discriminate.
  - rewrite T, R. vm_compute in L. injection L as <-.
    vm_compute. reflexivity.
Defined.

Lemma store_size_bound_witness :
  (size (sessions (run1 [CallLogin "h" "t" "p"; CallLogin "h2" "t2" "p2";
                         CallLogout "id0"] startup))
   ≤ 2)%nat.
Proof.
  apply (store_size_bound ticking_clock numbered_uuid full_environ
           plain_strftime unit accepting_connect accepting_execute
           accepting_close
           [CallLogin "h" "t" "p"; CallLogin "h2" "t2" "p2";
            CallLogout "id0"]).
Defined.

Lemma one_hour_boundary_witness :
  sessions (run1 [CallLogin "h" "t" "p"] startup) !! "id0"
  = Some (mkSession "id0" "h" "t" "p" 0 1 one_hour)
  ∧ ticking_clock (clock_reads (run1 [CallLogin "h" "t" "p"] startup)) - 1
    ≤ 3600000000
  ∧ ∃ s' w',
      get_session ticking_clock "id0" (run1 [CallLogin "h" "t" "p"] startup)
      = (Ok (Some s'), w')
      ∧ sessions w' !! "id0" = Some s'.
Proof.
  split; [vm_compute; reflexivity|]. split; [vm_compute; discriminate|].
  apply (one_hour_boundary ticking_clock numbered_uuid full_environ
           plain_strftime unit accepting_connect accepting_execute
           accepting_close [CallLogin "h" "t" "p"] "id0"
           (mkSession "id0" "h" "t" "p" 0 1 one_hour)).
  - vm_compute. reflexivity.
  - vm_compute. discriminate.
Defined.

Lemma only_close_raises_witness :
  (run_sql_query ticking_clock full_environ unit accepting_connect
     refusing_close two_rows "SELECT 1" None startup).1
  = Raise (DriverError "connection lost")
  ∧ ∀ e, (query1 "SELECT 1" None startup).1 ≠ Raise e.
Proof.
  split.
  - apply (only_close_raises ticking_clock full_environ unit
             accepting_connect refusing_close two_tables two_rows
             "SELECT 1" None startup).
    exists tt, (tick_driver startup), "connection lost". by repeat split.
  - intros e R.
    apply (only_close_raises ticking_clock full_environ unit
             accepting_connect accepting_close two_tables two_rows
             "SELECT 1" None startup) in R.
    destruct R as (conn & w1 & cause & _ & C & _). discriminate.
Defined.

Lemma run_sql_query_table_witness :
  conn1 None startup = (Ok tt, tick_driver startup)
  ∧ two_rows (driver_calls (tick_driver startup)) tt "SELECT id, name FROM t"
    = inr (["id"; "name"], [["1"; "ann"]; ["2"; "bob"]])
  ∧ accepting_close (S (driver_calls (tick_driver startup))) tt = None
  ∧ (query1 "SELECT id, name FROM t" None startup).1
    = Ok ("| id | name |" +:+ nl +:+ "| --- | --- |" +:+ nl
          +:+ "| 1 | ann |" +:+ nl +:+ "| 2 | bob |" +:+ nl).
Proof.
  split; [reflexivity|]. split; [reflexivity|]. split; [reflexivity|].
  rewrite (run_sql_query_table ticking_clock full_environ unit
             accepting_connect accepting_close two_rows
             "SELECT id, name FROM t" None startup (tick_driver startup) tt
             ["id"; "name"] [["1"; "ann"]; ["2"; "bob"]]
             eq_refl eq_refl eq_refl).
  vm_compute. reflexivity.
Defined.

Lemma get_schema_lines_witness :
  conn1 None startup = (Ok tt, tick_driver startup)
  ∧ two_tables (driver_calls (tick_driver startup)) tt
    = inr [("main", "sales", "orders"); ("main", "sales", "customers")]
  ∧ accepting_close (S (driver_calls (tick_driver startup))) tt = None
  ∧ (schema1 None startup).1
    = Ok ("Database: main, Schema: sales, Table: orders" +:+ nl
          +:+ "Database: main, Schema: sales, Table: customers").
Proof.
  split; [reflexivity|]. split; [reflexivity|]. split; [reflexivity|].
  destruct (get_schema_lines ticking_clock full_environ unit
              accepting_connect accepting_close two_tables None startup
              (tick_driver startup) tt
              [("main", "sales", "orders"); ("main", "sales", "customers")]
              eq_refl eq_refl eq_refl) as [-> _].
  vm_compute. reflexivity.
Defined.

Lemma unsupported_method_raises_witness :
  upper upper_as_is "delete" ≠ "GET"
  ∧ upper upper_as_is "delete" ≠ "POST"
  ∧ databricks_api_request ticking_clock full_environ upper_as_is Json
      jobs_get no_post status_ok json_body "jobs/list" "delete" None None
      startup
    = (Raise (ValueError "Unsupported HTTP method: delete"), startup).
Proof.
  split; [vm_compute; discriminate|]. split; [vm_compute; discriminate|].
  destruct (unsupported_method_raises ticking_clock full_environ upper_as_is
              Json jobs_get no_post status_ok json_body "jobs/list" "delete"
              None None startup
              ltac:(vm_compute; discriminate)
              ltac:(vm_compute; discriminate)) as [-> _].
  vm_compute. reflexivity.
Defined.

Lemma list_jobs_request_witness :
  "id0" ≠ EmptyString
  ∧ sessions logged_in !! "id0" = Some (mkSession "id0" "h" "t" "p" 0 1 one_hour)
  ∧ ticking_clock (clock_reads logged_in) - 1 ≤ one_hour
  ∧ "h" ≠ EmptyString ∧ "t" ≠ EmptyString
  ∧ (jobs1 (Some "id0") logged_in).1
    = Ok ("| Job ID | Job Name | Created By |" +:+ nl
          +:+ "| ------ | -------- | ---------- |" +:+ nl
          +:+ "| 7 | nightly | ann |" +:+ nl
          +:+ "| 8 | N/A | N/A |" +:+ nl).
Proof.
  split; [discriminate|]. split; [vm_compute; reflexivity|].
  split; [vm_compute; discriminate|]. split; [discriminate|].
  split; [discriminate|].
  destruct (list_jobs_request ticking_clock full_environ upper_as_is Json
              jobs_get no_post status_ok json_body short_repr "id0"
              (mkSession "id0" "h" "t" "p" 0 1 one_hour) logged_in
              ltac:(discriminate) ltac:(vm_compute; reflexivity)
              ltac:(vm_compute; discriminate) ltac:(discriminate)
              ltac:(discriminate))
    as (text & w' & L & _ & _ & _ & _ & T).
  rewrite L. simpl fst.
  rewrite (T two_jobs two_jobs eq_refl eq_refl).
  vm_compute. reflexivity.
Defined.

Lemma jobs_table_all_or_nothing_witness :
  assoc "jobs"
    [("jobs", JList [JDict [("job_id", JAtom (AInt 7))];
                     JAtom ANone;
                     JDict [("job_id", JAtom (AInt 9))]])]
  = Some (JList [JDict [("job_id", JAtom (AInt 7))];
                 JAtom ANone;
                 JDict [("job_id", JAtom (AInt 9))]])
  ∧ ∃ before job after,
      [JDict [("job_id", JAtom (AInt 7))]; JAtom ANone;
       JDict [("job_id", JAtom (AInt 9))]]
      = (before ++ job :: after)%list
      ∧ Forall (λ j, ∃ row, job_row short_repr j = inr row) before
      ∧ job_row short_repr job
        = inl "'NoneType' object has no attribute 'get'".
Proof.
  split; [reflexivity|].
  pose proof (jobs_table_all_or_nothing short_repr
                [("jobs", JList [JDict [("job_id", JAtom (AInt 7))];
                                 JAtom ANone;
                                 JDict [("job_id", JAtom (AInt 9))]])]
                [JDict [("job_id", JAtom (AInt 7))];
                 JAtom ANone;
                 JDict [("job_id", JAtom (AInt 9))]] eq_refl) as H.
  assert (E : jobs_listing short_repr
                (JDict [("jobs", JList [JDict [("job_id", JAtom (AInt 7))];
                                        JAtom ANone;
                                        JDict [("job_id", JAtom (AInt 9))]])])
              = inl "'NoneType' object has no attribute 'get'")
    by (vm_compute; reflexivity).
  rewrite E in H. exact H.
Defined.

Lemma job_row_cases_witness :
  job_row short_repr (JList []) = inl "'list' object has no attribute 'get'"
  ∧ job_row short_repr (JDict [("settings", JAtom ANone)])
    = inl "'NoneType' object has no attribute 'get'"
  ∧ job_row short_repr (JDict [("tags", JList [])])
    = inr ("| N/A | N/A | N/A |" +:+ nl)
  ∧ job_row short_repr (JDict [("job_id", JAtom (AInt 8))])
    = inr ("| 8 | N/A | N/A |" +:+ nl)
  ∧ job_row short_repr
      (JDict [("created_by", JStr "ann");
              ("settings", JDict [("name", JStr "nightly")])])
    = inr ("| N/A | nightly | ann |" +:+ nl).
Proof.
  destruct (job_row_cases short_repr)
    as (NotDict & BadSettings & NoSettings & Settings & _).
  split; [by apply (NotDict (JList []))|].
  split; [by apply (BadSettings [("settings", JAtom ANone)] (JAtom ANone))|].
  split; [by apply (NoSettings [("tags", JList [])])|].
  split; [by apply (NoSettings [("job_id", JAtom (AInt 8))])|].
  by apply (Settings [("created_by", JStr "ann");
                      ("settings", JDict [("name", JStr "nightly")])]
              [("name", JStr "nightly")]).
Defined.

Lemma jobs_listing_without_list_witness :
  jobs_listing short_repr (JList []) = inl "'list' object has no attribute 'get'"
  ∧ jobs_listing short_repr (JDict [("jobs", JList [])]) = inr "No jobs found."
  ∧ jobs_listing short_repr (JDict [("error", JStr "denied")])
    = inr "No jobs found."
  ∧ jobs_listing short_repr (JDict [("jobs", JAtom (AInt 3))])
    = inl "'int' object is not iterable"
  ∧ jobs_listing short_repr (JDict [("jobs", JStr "none")])
    = inl "'str' object has no attribute 'get'".
Proof.
  destruct (jobs_listing_without_list short_repr)
    as (NotDict & NoJobs & Number & Text & _).
  split; [by apply (NotDict (JList []))|].
  split; [by apply (NoJobs [("jobs", JList [])])|].
  split; [by apply (NoJobs [("error", JStr "denied")])|].
  split; [by apply (Number [("jobs", JAtom (AInt 3))] (AInt 3))|].
  by apply (Text [("jobs", JStr "none")] "none").
Defined.

Lemma tools_reject_invalid_session_witness :
  "nobody" ≠ EmptyString
  ∧ (get_session ticking_clock "nobody" logged_in).1 = Ok None
  ∧ (query1 "SELECT 1" (Some "nobody") logged_in).1
    = Ok "Error executing query: Invalid or expired session ID"
  ∧ driver_calls (query1 "SELECT 1" (Some "nobody") logged_in).2
    = driver_calls logged_in.
Proof.
  split; [discriminate|]. split; [vm_compute; reflexivity|].
  destruct (tools_reject_invalid_session ticking_clock full_environ unit
              accepting_connect accepting_close two_tables two_rows
              upper_as_is Json jobs_get no_post status_ok json_body
              short_repr "SELECT 1" "nobody" logged_in
              ltac:(discriminate) ltac:(vm_compute; reflexivity))
    as (w' & Q & _ & _ & D & _).
  rewrite Q. by split.
Defined.

Lemma tools_refresh_session_witness :
  "id0" ≠ EmptyString
  ∧ sessions logged_in !! "id0" = Some (mkSession "id0" "h" "t" "p" 0 1 one_hour)
  ∧ ticking_clock (clock_reads logged_in) - 1 ≤ one_hour
  ∧ sessions
      (run_sql_query ticking_clock full_environ unit accepting_connect
         refusing_close failing_query "SELEC" (Some "id0") logged_in).2
    !! "id0"
    = Some (mkSession "id0" "h" "t" "p" 0 3 one_hour).
Proof.
  split; [discriminate|]. split; [vm_compute; reflexivity|].
  split; [vm_compute; discriminate|].
  apply (tools_refresh_session ticking_clock full_environ unit
           accepting_connect refusing_close two_tables failing_query
           upper_as_is Json jobs_get no_post status_ok json_body short_repr
           "SELEC" "id0" (mkSession "id0" "h" "t" "p" 0 1 one_hour)
           logged_in);
    [discriminate|vm_compute; reflexivity|vm_compute; discriminate].
Defined.

Lemma tools_leave_other_sessions_witness :
  None ≠ Some "id0"
  ∧ sessions (query1 "SELECT 1" None logged_in).2 !! "id0"
    = sessions logged_in !! "id0"
  ∧ sessions (jobs1 (Some "id9") logged_in).2 !! "id0"
    = sessions logged_in !! "id0".
Proof.
  split; [discriminate|]. split.
  - apply (tools_leave_other_sessions ticking_clock full_environ unit
             accepting_connect accepting_close two_tables two_rows
             upper_as_is Json jobs_get no_post status_ok json_body
             short_repr "SELECT 1" "id0" None logged_in). discriminate.
  - apply (tools_leave_other_sessions ticking_clock full_environ unit
             accepting_connect accepting_close two_tables two_rows
             upper_as_is Json jobs_get no_post status_ok json_body
             short_repr "SELECT 1" "id0" (Some "id9") logged_in).
    discriminate.
Defined.

Lemma stored_session_invariants_witness :
  sessions (run1 [CallLogin "h" "t" "p"; CallStatus "id0"] startup) !! "id0"
  = Some (mkSession "id0" "h" "t" "p" 0 3 one_hour)
  ∧ (∀ i j : nat, (i ≤ j)%nat → ticking_clock i ≤ ticking_clock j)
  ∧ id (mkSession "id0" "h" "t" "p" 0 3 one_hour) = "id0"
  ∧ created_at (mkSession "id0" "h" "t" "p" 0 3 one_hour)
    ≤ last_used (mkSession "id0" "h" "t" "p" 0 3 one_hour).
Proof.
  assert (Mono : ∀ i j : nat, (i ≤ j)%nat → ticking_clock i ≤ ticking_clock j)
    by (unfold ticking_clock; lia).
  split; [vm_compute; reflexivity|]. split; [exact Mono|].
  destruct (stored_session_invariants ticking_clock numbered_uuid
              full_environ plain_strftime unit accepting_connect
              accepting_execute accepting_close
              [CallLogin "h" "t" "p"; CallStatus "id0"] "id0"
              (mkSession "id0" "h" "t" "p" 0 3 one_hour)
              ltac:(vm_compute; reflexivity)) as (I & _ & _ & C).
  split; [exact I|exact (C Mono)].
Defined.
